(** * nonce_mining: the round-based nonce-commitment protocol

    A shallow embedding of the miner and validator neurons of the
    [nonce_mining] subnet (src/neurons/miner.py, src/neurons/validator.py,
    src/nonce_mining/validator/forward.py, src/nonce_mining/utils/hashing.py)
    and the properties their specification states about them.

    Conventions.
    - Python [int] is [Z]; Python [str] is [string], read as a sequence of
      code points below 256; Python [bytes] is [list Z] with every element
      in [0, 256).
    - Python exceptions are the [Raise] results of the [pyres] monad.
    - The pseudo-random generator behind [random.randint] is an explicit
      entropy tape that every drawing function threads through.
    - [self] objects are records passed in and returned; calls to
      [bt.logging] have no effect on the modelled state and are left out. *)

From Stdlib Require Import ZArith String Ascii List Lia.
From stdpp Require Import base decidable option list gmap strings pretty.
From Equations Require Import Equations.

#[local] Open Scope Z_scope.
#[local] Set Warnings "-clear-no-such-hyp".

(** ** Python results *)

Inductive exn : Set :=
| ValueError
| IndexError.

Inductive pyres (A : Type) : Type :=
| Ok (a : A)
| Raise (e : exn).
Arguments Ok {A} a.
Arguments Raise {A} e.

#[global] Instance pyres_ret : MRet pyres := fun A a => Ok a.

#[global] Instance pyres_bind : MBind pyres := fun A B k m =>
  match m with
  | Ok a => k a
  | Raise e => Raise e
  end.

(** ** hashlib.sha256

    FIPS 180-4 SHA-256 over byte lists.  Words are integers in [0, 2^32)
    and every addition is reduced modulo [2^32]. *)

Module Sha256.

Definition w32 (x : Z) : Z := x mod 2 ^ 32.

Definition add32 (x y : Z) : Z := w32 (x + y).

Definition rotr (n x : Z) : Z :=
  Z.lor (Z.shiftr x n) (w32 (Z.shiftl x (32 - n))).

Definition not32 (x : Z) : Z := Z.lxor x 4294967295.

Definition Ch (x y z : Z) : Z := Z.lxor (Z.land x y) (Z.land (not32 x) z).

Definition Maj (x y z : Z) : Z :=
  Z.lxor (Z.lxor (Z.land x y) (Z.land x z)) (Z.land y z).

Definition Sigma0 (x : Z) : Z :=
  Z.lxor (Z.lxor (rotr 2 x) (rotr 13 x)) (rotr 22 x).

Definition Sigma1 (x : Z) : Z :=
  Z.lxor (Z.lxor (rotr 6 x) (rotr 11 x)) (rotr 25 x).

Definition sigma0 (x : Z) : Z :=
  Z.lxor (Z.lxor (rotr 7 x) (rotr 18 x)) (Z.shiftr x 3).

Definition sigma1 (x : Z) : Z :=
  Z.lxor (Z.lxor (rotr 17 x) (rotr 19 x)) (Z.shiftr x 10).

(** The primes the constants of the standard are drawn from. *)
Definition is_prime (p : nat) : bool :=
  forallb (fun d => negb (Nat.eqb (Nat.modulo p d) 0)) (seq 2 (p - 2)).

Definition primes64 : list Z :=
  Eval vm_compute in map Z.of_nat (filter is_prime (seq 2 310)).

(** Integer cube root, one bit at a time from bit [n - 1] down. *)
Fixpoint cube_root_bits (n : nat) (x r : Z) : Z :=
  match n with
  | O => r
  | S n' =>
    let r' := r + 2 ^ Z.of_nat n' in
    cube_root_bits n' x (if r' * r' * r' <=? x then r' else r)
  end.

(** The round constants: the first 32 bits of the fractional parts of the
    cube roots of the first 64 primes. *)
Definition K : list Z :=
  Eval vm_compute in
    map (fun p => w32 (cube_root_bits 40 (p * 2 ^ 96) 0)) primes64.

(** The eight working variables, and also the running hash value. *)
Record regs : Set := Regs {
  ra : Z; rb : Z; rc : Z; rd : Z; re : Z; rf : Z; rg : Z; rh : Z
}.

(** The initial hash value: the first 32 bits of the fractional parts of
    the square roots of the first 8 primes. *)
Definition root_bits (p : Z) : Z := w32 (Z.sqrt (p * 2 ^ 64)).

Definition H0 : regs :=
  Eval vm_compute in
    Regs (root_bits 2) (root_bits 3) (root_bits 5) (root_bits 7)
         (root_bits 11) (root_bits 13) (root_bits 17) (root_bits 19).

(** Big-endian bytes of the low [n] bytes of [x], most significant first. *)
Fixpoint be_bytes (n : nat) (x : Z) : list Z :=
  match n with
  | O => []
  | S n' => (Z.shiftr x (8 * Z.of_nat n')) mod 256 :: be_bytes n' x
  end.

(** The integer a byte list denotes, most significant byte first. *)
Definition be_int (bs : list Z) : Z :=
  fold_left (fun acc b => acc * 256 + b) bs 0.

(** Padding: a one bit, zero bits up to 56 bytes modulo 64, then the bit
    length of the message on eight bytes. *)
Definition pad (msg : list Z) : list Z :=
  let len := Z.of_nat (length msg) in
  msg ++ [128] ++ repeat 0 (Z.to_nat ((55 - len) mod 64)) ++ be_bytes 8 (8 * len).

(** Cut a byte list into groups of [n] bytes. *)
Fixpoint chunks (fuel n : nat) (bs : list Z) : list (list Z) :=
  match fuel with
  | O => []
  | S fuel' =>
    match bs with
    | [] => []
    | _ => firstn n bs :: chunks fuel' n (skipn n bs)
    end
  end.

Definition words_of_block (block : list Z) : list Z :=
  map be_int (chunks 16 4 block).

(** The message schedule: [window] holds the sixteen most recent words. *)
Fixpoint schedule (n : nat) (window : list Z) : list Z :=
  match n with
  | O => []
  | S n' =>
    let w := add32 (add32 (add32 (sigma1 (nth 14 window 0)) (nth 9 window 0))
                          (sigma0 (nth 1 window 0)))
                   (nth 0 window 0) in
    w :: schedule n' (tl window ++ [w])
  end.

Definition round (s : regs) (kw : Z * Z) : regs :=
  let t1 := add32 (add32 (add32 (add32 (rh s) (Sigma1 (re s)))
                                (Ch (re s) (rf s) (rg s)))
                         (fst kw))
                  (snd kw) in
  let t2 := add32 (Sigma0 (ra s)) (Maj (ra s) (rb s) (rc s)) in
  Regs (add32 t1 t2) (ra s) (rb s) (rc s) (add32 (rd s) t1) (re s) (rf s) (rg s).

Definition compress (h : regs) (block : list Z) : regs :=
  let w16 := words_of_block block in
  let w := w16 ++ schedule 48 w16 in
  let s := fold_left round (combine K w) h in
  Regs (add32 (ra h) (ra s)) (add32 (rb h) (rb s)) (add32 (rc h) (rc s))
       (add32 (rd h) (rd s)) (add32 (re h) (re s)) (add32 (rf h) (rf s))
       (add32 (rg h) (rg s)) (add32 (rh h) (rh s)).

Definition bytes_of_regs (h : regs) : list Z :=
  be_bytes 4 (ra h) ++ be_bytes 4 (rb h) ++ be_bytes 4 (rc h) ++
  be_bytes 4 (rd h) ++ be_bytes 4 (re h) ++ be_bytes 4 (rf h) ++
  be_bytes 4 (rg h) ++ be_bytes 4 (rh h).

(** [sha256(msg).digest()] *)
Definition digest (msg : list Z) : list Z :=
  let padded := pad msg in
  bytes_of_regs (fold_left compress (chunks (length padded) 64 padded) H0).

End Sha256.

(** ** Built-ins used by the hashing utilities *)

(** [str.encode()]: UTF-8.  A code point below 128 is one byte, the
    others (below 256 in this model) take two. *)
Definition utf8 (c : ascii) : list Z :=
  let n := Z.of_N (N_of_ascii c) in
  if n <? 128 then [n]
  else [Z.lor 192 (Z.shiftr n 6); Z.lor 128 (Z.land n 63)].

Fixpoint encode (s : string) : list Z :=
  match s with
  | EmptyString => []
  | String c s' => utf8 c ++ encode s'
  end.

(** [bytes.hex()]: two lowercase hexadecimal digits per byte. *)
Definition hexdigit (d : Z) : ascii :=
  ascii_of_N (Z.to_N (if d <? 10 then 48 + d else 87 + d)).

Fixpoint hex (bs : list Z) : string :=
  match bs with
  | [] => EmptyString
  | b :: bs' => String (hexdigit (b / 16)) (String (hexdigit (b mod 16)) (hex bs'))
  end.

(** [int(s, 16)] on a string of hexadecimal digits; anything else, the
    empty string included, is a [ValueError].  (The sign, [0x] prefix,
    underscore and surrounding-blank forms that Python also accepts are
    not part of this model: [bytes.hex()] produces none of them.) *)
Definition digit16 (c : ascii) : option Z :=
  let n := Z.of_N (N_of_ascii c) in
  if (48 <=? n) && (n <=? 57) then Some (n - 48)
  else if (97 <=? n) && (n <=? 102) then Some (n - 87)
  else if (65 <=? n) && (n <=? 70) then Some (n - 55)
  else None.

Fixpoint int16_digits (acc : Z) (s : string) : option Z :=
  match s with
  | EmptyString => Some acc
  | String c s' =>
    match digit16 c with
    | Some d => int16_digits (acc * 16 + d) s'
    | None => None
    end
  end.

Definition int16 (s : string) : pyres Z :=
  match s with
  | EmptyString => Raise ValueError
  | _ =>
    match int16_digits 0 s with
    | Some v => Ok v
    | None => Raise ValueError
    end
  end.

(** [str(n)] for an integer: its decimal rendering. *)
Definition str (n : Z) : string := pretty n.

(** ** The [random] module

    The generator is an entropy tape read at a cursor.  [randint a b]
    consumes one cell and returns an integer [N] with [a <= N <= b], both
    ends included; an empty range is a [ValueError] and consumes nothing. *)

Record rng : Type := Rng {
  tape : nat -> Z;
  cursor : nat
}.

Definition advance (g : rng) : rng := Rng (tape g) (S (cursor g)).

Definition randint (a b : Z) (g : rng) : pyres (Z * rng) :=
  if b <? a then Raise ValueError
  else Ok (a + tape g (cursor g) mod (b - a + 1), advance g).

(** ** nonce_mining/utils/hashing.py *)

Definition gen_nonce (g : rng) : pyres (string * rng) :=
  '(n, g) ← randint 0 10 g;
  mret (str n, g).

Definition gen_hash (nonce : string) : string :=
  hex (Sha256.digest (encode nonce)).

(** ** nonce_mining/protocol.py

    The synapse exchanged between validator and miner.  Only its uses are
    in the sources at hand: the validator builds it from [block_id] alone,
    the miner fills [hash] in, and the axon attaches the caller's hotkey. *)

Record Dummy : Type := MkDummy {
  block_id : Z;
  hash : option Z;
  dendrite_hotkey : option string
}.

Definition set_hash (synapse : Dummy) (h : Z) : Dummy :=
  MkDummy (block_id synapse) (Some h) (dendrite_hotkey synapse).

(** ** neurons/miner.py *)

Module Miner.

Record t : Type := Mk {
  nonces : gset string;
  last_block_id : option Z;
  extra_attempts : Z;
  still_trying : bool
}.

(** [Miner.__init__] *)
Definition init : t := Mk ∅ None 10 true.

(** How the [while nonce in self.nonces] loop is left: by its condition
    turning false with [nonce] in hand, or by the [return] in its body. *)
Inductive search : Type :=
| Fresh (nonce : string)
| GaveUp.

(** The loop of [forward], entered with the current [nonce] and
    [attempts]; [self.nonces] and [self.extra_attempts] do not change
    while it runs. *)
Equations? redraw (tried : gset string) (extra : Z) (nonce : string)
    (attempts : Z) (g : rng) : pyres (search * rng)
    by wf (Z.to_nat (Z.of_nat (size tried) + extra + 1 - attempts)) lt :=
  redraw tried extra nonce attempts g with decide (nonce ∈ tried) => {
    | right _ := Ok (Fresh nonce, g);
    | left _ with gen_nonce g => {
      | Raise e := Raise e;
      | Ok (nonce', g') with decide (attempts + 1 > Z.of_nat (size tried) + extra) => {
        | left _ := Ok (GaveUp, g');
        | right _ := redraw tried extra nonce' (attempts + 1) g' } } }.
Proof. lia. Qed.

(** Lines 58 to 62: a block id other than the last one seen starts a
    round afresh. *)
Definition begin_round (self : t) (synapse : Dummy) : t :=
  if decide (Some (block_id synapse) ≠ last_block_id self)
  then Mk ∅ (Some (block_id synapse)) (extra_attempts self) true
  else self.

(** Lines 64 to 83, run on the state [begin_round] leaves. *)
Definition search_step (self : t) (synapse : Dummy) (g : rng)
    : pyres (t * Dummy * rng) :=
  if negb (still_trying self) then Ok (self, synapse, g)
  else
    '(nonce, g) ← gen_nonce g;
    '(found, g) ← redraw (nonces self) (extra_attempts self) nonce 0 g;
    match found with
    | GaveUp =>
      Ok (Mk (nonces self) (last_block_id self) (extra_attempts self) false,
          synapse, g)
    | Fresh nonce =>
      let self := Mk ({[nonce]} ∪ nonces self) (last_block_id self)
                     (extra_attempts self) (still_trying self) in
      h ← int16 (gen_hash nonce);
      Ok (self, set_hash synapse h, g)
    end.

(** [Miner.forward] *)
Definition forward (self : t) (synapse : Dummy) (g : rng)
    : pyres (t * Dummy * rng) :=
  search_step (begin_round self synapse) synapse g.

(** The parts of [self.metagraph] and [self.config.blacklist] that
    [blacklist] reads. *)
Record Metagraph : Type := MkMetagraph {
  hotkeys : list string;
  validator_permit : list bool
}.

Record BlacklistConfig : Type := MkBlacklistConfig {
  allow_non_registered : bool;
  force_validator_permit : bool
}.

(** [list.index(x)]: position of the first occurrence, [ValueError] when
    there is none. *)
Fixpoint index (x : option string) (l : list string) : pyres nat :=
  match l with
  | [] => Raise ValueError
  | y :: l' => if decide (x = Some y) then Ok O else n ← index x l'; Ok (S n)
  end.

(** [l[i]] for [i >= 0]: [IndexError] when out of range. *)
Definition getitem {A : Type} (l : list A) (i : nat) : pyres A :=
  match l !! i with
  | Some a => Ok a
  | None => Raise IndexError
  end.

(** [x in l] *)
Definition contains (x : option string) (l : list string) : bool :=
  existsb (fun y => bool_decide (x = Some y)) l.

(** [Miner.blacklist] *)
Definition blacklist (metagraph : Metagraph) (config : BlacklistConfig)
    (synapse : Dummy) : pyres (bool * string) :=
  uid ← index (dendrite_hotkey synapse) (hotkeys metagraph);
  if negb (allow_non_registered config)
     && negb (contains (dendrite_hotkey synapse) (hotkeys metagraph))
  then Ok (true, "Unrecognized hotkey"%string)
  else
    blocked ← (if force_validator_permit config
               then permit ← getitem (validator_permit metagraph) uid;
                    Ok (negb permit)
               else Ok false);
    if (blocked : bool) then Ok (true, "Non-validator hotkey"%string)
    else Ok (false, "Hotkey recognized!"%string).

(** [Miner.priority]; [stakes] is [self.metagraph.S] and [float] the
    conversion applied to the entry read from it. *)
Definition priority {Stake Float : Type} (float : Stake -> Float)
    (stakes : list Stake) (metagraph : Metagraph) (synapse : Dummy)
    : pyres Float :=
  caller_uid ← index (dendrite_hotkey synapse) (hotkeys metagraph);
  stake ← getitem stakes caller_uid;
  Ok (float stake).

End Miner.

(** ** neurons/validator.py and nonce_mining/validator/forward.py *)

Module Validator.

Section Neuron.

(** State kept by the base neuron class (scores and the like), the world
    outside the process, and the type of rewards: all external here. *)
Context {Base World Reward : Type}.

Record t : Type := Mk {
  nonce_not_found : bool;
  nonce : Z;
  last_block : option Z;
  step : Z;
  base : Base
}.

(** One dispatch of a challenge to a list of miners. *)
Inductive call : Type :=
| Challenge (uids : list nat) (synapse : Dummy).

(** The collaborators of the forward pass that are not among the sources:
    the selection policy, the network client, the reward assignment and
    the score update. *)
Variable get_random_uids : t -> World -> rng -> list nat * rng.
Variable dendrite : list nat -> Dummy -> World -> list (option Z) * World.
Variable get_rewards : t -> list (option Z) -> t * list Reward.
Variable update_scores : t -> list Reward -> list nat -> t.

(** [forward] of nonce_mining/validator/forward.py; [block] is the value
    of [self.block]. *)
Definition query (self : t) (block : Z) (g : rng) (w : World)
    : t * rng * World * list call :=
  let '(miner_uids, g) := get_random_uids self w g in
  let synapse := MkDummy block None None in
  let '(responses, w) := dendrite miner_uids synapse w in
  let '(self, rewards) := get_rewards self responses in
  let self := update_scores self rewards miner_uids in
  (self, g, w, [Challenge miner_uids synapse]).

(** Lines 59 to 65: commit to a new secret when the block has changed. *)
Definition commit (self : t) (block : Z) (g : rng) : pyres (t * rng) :=
  if decide (last_block self ≠ Some block) then
    '(secret, g) ← gen_nonce g;
    target ← int16 (gen_hash secret);
    Ok (Mk true target (Some block) (step self) (base self), g)
  else Ok (self, g).

(** [Validator.forward]; the trace lists the challenges dispatched. *)
Definition forward (self : t) (block : Z) (g : rng) (w : World)
    : pyres (t * rng * World * list call) :=
  '(self, g) ← commit self block g;
  if nonce_not_found self then
    let self := Mk (nonce_not_found self) (nonce self) (last_block self)
                   (step self + 1) (base self) in
    Ok (query self block g w)
  else Ok (self, g, w, []).

(** The neuron's main loop calling [forward] [n] times while
    [self.block] stays at [block]; the traces are concatenated. *)
Fixpoint passes (n : nat) (self : t) (block : Z) (g : rng) (w : World)
    : pyres (t * rng * World * list call) :=
  match n with
  | O => Ok (self, g, w, [])
  | S n' =>
    '(self, g, w, calls) ← forward self block g w;
    '(self, g, w, calls') ← passes n' self block g w;
    Ok (self, g, w, calls ++ calls')
  end.

End Neuron.

Arguments t : clear implicits.
Arguments call : clear implicits.

End Validator.

(** ** Vocabulary of the specification *)

Definition is_byte (b : Z) : Prop := 0 <= b < 256.

(** The characters [bytes.hex()] draws from. *)
Definition hex_alphabet : list ascii := list_ascii_of_string "0123456789abcdef".

(** The value both neurons exchange for a candidate, as the specification
    words it: the 32 bytes of the hash read as a big-endian integer. *)
Definition digest_value (c : string) : Z :=
  Sha256.be_int (Sha256.digest (encode c)).

(** The candidate the [k]-th next call of [gen_nonce] returns, and the
    generator after [k] calls. *)
Definition candidate (g : rng) (k : nat) : string :=
  str (tape g (cursor g + k)%nat mod 11).

Definition skip (k : nat) (g : rng) : rng := Rng (tape g) (cursor g + k)%nat.

Definition draw (g : rng) : string := str (tape g (cursor g) mod 11).

(** The next [n] candidates are all in [tried]. *)
Definition consecutive_duplicates (tried : gset string) (g : rng) (n : nat)
    : bool :=
  forallb (fun k => bool_decide (candidate g k ∈ tried)) (seq 0 n).

(** The strings the specification gives as the default domain. *)
Definition decimal_digits : list string :=
  map (fun c => String c EmptyString) (list_ascii_of_string "0123456789").

(** The state [Exhausted] of the search engine. *)
Definition exhausted (self : Miner.t) : Miner.t :=
  Miner.Mk (Miner.nonces self) (Miner.last_block_id self)
           (Miner.extra_attempts self) false.

(** The axon serving a sequence of inbound requests, one [forward] after
    the other on the same miner. *)
Fixpoint serve (self : Miner.t) (reqs : list Dummy) (g : rng)
    : pyres (Miner.t * list Dummy * rng) :=
  match reqs with
  | [] => Ok (self, [], g)
  | req :: reqs' =>
    '(self, resp, g) ← Miner.forward self req g;
    '(self, resps, g) ← serve self reqs' g;
    Ok (self, resp :: resps, g)
  end.

(** The state a run of requests starts its search from. *)
Definition round_start (self : Miner.t) (reqs : list Dummy) : Miner.t :=
  match reqs with
  | [] => self
  | req :: _ => Miner.begin_round self req
  end.

(** What a request comes back as: untouched when no candidate was picked,
    carrying the candidate's digest value otherwise. *)
Definition answer (req : Dummy) (pick : option string) : Dummy :=
  match pick with
  | None => req
  | Some c => set_hash req (digest_value c)
  end.

(** The candidates picked along a run. *)
Definition picked (picks : list (option string)) : list string :=
  omap id picks.

(** What the loop of [forward] looks at in its [j]-th turn: the nonce it
    was entered with, then the candidates drawn from [g]. *)
Definition examined (nonce : string) (g : rng) (j : nat) : string :=
  match j with
  | O => nonce
  | S j' => candidate g j'
  end.

(** The eleven candidates as a set. *)
Definition domain_set : gset string :=
  list_to_set (decimal_digits ++ ["10"%string]).

(** What a response keeps of its request. *)
Definition answers (req resp : Dummy) : Prop :=
  block_id resp = block_id req /\
  dendrite_hotkey resp = dendrite_hotkey req /\
  (resp = req \/ exists c, c ∈ domain_set /\ hash resp = Some (digest_value c)).

(** A collaborator of the validator that leaves the round alone: the
    target, the block it belongs to and the step counter. *)
Definition keeps_round {Base : Type}
    (f : Validator.t Base -> Validator.t Base) : Prop :=
  forall v,
    Validator.nonce (f v) = Validator.nonce v /\
    Validator.last_block (f v) = Validator.last_block v /\
    Validator.step (f v) = Validator.step v.


(** ** Scenarios *)

(** A synapse as the validator sends it for block [b]. *)
Definition challenge (b : Z) : Dummy := MkDummy b None None.

(** A generator whose draws follow the list [l] over and over. *)
Definition tape_of (l : list Z) : rng :=
  Rng (fun k => nth (k mod length l) l 0) 0.

(** Collaborators for a validator on its own: two miners are always
    selected, nobody answers, nobody is rewarded. *)
Definition pick_two (self : Validator.t unit) (w : unit) (g : rng)
    : list nat * rng := ([0%nat; 1%nat], g).

Definition nobody_answers (uids : list nat) (synapse : Dummy) (w : unit)
    : list (option Z) * unit := (map (fun _ => None) uids, w).

Definition no_rewards (self : Validator.t unit) (responses : list (option Z))
    : Validator.t unit * list Z := (self, map (fun _ => 0) responses).

Definition keep_scores (self : Validator.t unit) (rewards : list Z)
    (uids : list nat) : Validator.t unit := self.

(** A validator that has seen its secret found in round 7. *)
Definition resolved_validator : Validator.t unit :=
  Validator.Mk false (digest_value "7") (Some 7) 3 tt.

(** The eleven strings [gen_nonce] can return. *)
Definition default_candidates : list string := decimal_digits ++ ["10"%string].

(** The miner of the second end-to-end scenario of the specification:
    slack 2, candidate 4 tried already in round 7. *)
Definition stuck_miner : Miner.t := Miner.Mk {["4"%string]} (Some 7) 2 true.

(** ** Reference digests *)

(** SHA-256 of the decimal strings of 0 to 10, in hexadecimal, as any
    implementation of the standard gives them. *)
Definition sha256_of_candidates : list (Z * string) :=
  [ (0, "5feceb66ffc86f38d952786c6d696c79c2dbc239dd4e91b46729d73a27fb57e9"%string);
    (1, "6b86b273ff34fce19d6b804eff5a3f5747ada4eaa22f1d49c01e52ddb7875b4b"%string);
    (2, "d4735e3a265e16eee03f59718b9b5d03019c07d8b6c51f90da3a666eec13ab35"%string);
    (3, "4e07408562bedb8b60ce05c1decfe3ad16b72230967de01f640b7e4729b49fce"%string);
    (4, "4b227777d4dd1fc61c6f884f48641d02b4d121d3fd328cb08b5531fcacdabf8a"%string);
    (5, "ef2d127de37b942baad06145e54b0c619a1f22327b2ebbcfbec78f5564afe39d"%string);
    (6, "e7f6c011776e8db7cd330b54174fd76f7d0216b612387a5ffcfb81e6f0919683"%string);
    (7, "7902699be42c8a8e46fbbb4501726517e86b22c56a189f7625a6da49081b2451"%string);
    (8, "2c624232cdd221771294dfbb310aca000a0df6ac8b66b696d90ef06fdefb64a3"%string);
    (9, "19581e27de7ced00ff1ce50b2047e7a567c76b1cbaebabe5ef03f7c3017bb5b7"%string);
    (10, "4a44dc15364204a80fe80e9039455cc1608281820fe2b24f1e5233ade6af1dd5"%string) ].

(** The test messages of the standard with their digests: the empty
    message, a one-block message and a two-block message. *)
Definition sha256_test_vectors : list (string * string) :=
  [ (EmptyString,
     "e3b0c44298fc1c149afbf4c8996fb92427ae41e4649b934ca495991b7852b855"%string);
    ("abc"%string,
     "ba7816bf8f01cfea414140de5dae2223b00361a396177a9cb410ff61f20015ad"%string);
    ("abcdbcdecdefdefgefghfghighijhijkijkljklmklmnlmnomnopnopq"%string,
     "248d6a61d20638b8e5c026930c3e6039a33ce45964ff2167f6ecedd419db06c1"%string) ].

(** * Properties *)

Arguments Sha256.digest : simpl never.
Arguments gen_hash : simpl never.
Arguments int16 : simpl never.
Arguments str : simpl never.
Arguments Miner.redraw : simpl never.

(** Run the monad's plumbing and nothing else. *)
Ltac pysimpl := cbn [mbind mret pyres_bind pyres_ret].

(** ** Bytes, hexadecimal strings and integers *)

Lemma be_bytes_length n x : length (Sha256.be_bytes n x) = n.
Proof. induction n as [|n IH]; simpl; [reflexivity | now rewrite IH]. Qed.

Lemma be_bytes_bytes n x : Forall is_byte (Sha256.be_bytes n x).
Proof.
  induction n as [|n IH]; simpl; constructor; [|exact IH].
  unfold is_byte. apply Z.mod_pos_bound. lia.
Qed.

Lemma digest_length msg : length (Sha256.digest msg) = 32%nat.
Proof.
  unfold Sha256.digest, Sha256.bytes_of_regs.
  rewrite !length_app, !be_bytes_length. reflexivity.
Qed.

Lemma digest_bytes msg : Forall is_byte (Sha256.digest msg).
Proof.
  unfold Sha256.digest, Sha256.bytes_of_regs.
  rewrite !Forall_app. repeat split; apply be_bytes_bytes.
Qed.

Lemma hex_length bs : String.length (hex bs) = (2 * length bs)%nat.
Proof. induction bs as [|b bs IH]; simpl; [reflexivity | rewrite IH; lia]. Qed.

Lemma nibble_cases d :
  0 <= d < 16 ->
  d = 0 \/ d = 1 \/ d = 2 \/ d = 3 \/ d = 4 \/ d = 5 \/ d = 6 \/ d = 7 \/
  d = 8 \/ d = 9 \/ d = 10 \/ d = 11 \/ d = 12 \/ d = 13 \/ d = 14 \/ d = 15.
Proof. lia. Qed.

Ltac each_nibble H :=
  apply nibble_cases in H;
  repeat (destruct H as [H|H]; [subst; vm_compute; tauto|]);
  subst; vm_compute; tauto.

Lemma digit16_hexdigit d : 0 <= d < 16 -> digit16 (hexdigit d) = Some d.
Proof. intros H. each_nibble H. Qed.

Lemma hexdigit_alphabet d : 0 <= d < 16 -> In (hexdigit d) hex_alphabet.
Proof. intros H. each_nibble H. Qed.

Lemma byte_nibbles b :
  is_byte b -> 0 <= b / 16 < 16 /\ 0 <= b mod 16 < 16.
Proof.
  unfold is_byte. intros Hb. split.
  - split; [apply Z.div_pos; lia | apply Z.div_lt_upper_bound; lia].
  - apply Z.mod_pos_bound. lia.
Qed.

Lemma hex_chars bs :
  Forall is_byte bs ->
  Forall (fun c => In c hex_alphabet) (list_ascii_of_string (hex bs)).
Proof.
  induction 1 as [|b bs Hb _ IH]; simpl; [constructor|].
  destruct (byte_nibbles b Hb) as [Hhi Hlo].
  constructor; [now apply hexdigit_alphabet|].
  constructor; [now apply hexdigit_alphabet | exact IH].
Qed.

Lemma int16_digits_hex bs : forall acc,
  Forall is_byte bs ->
  int16_digits acc (hex bs) = Some (fold_left (fun a b => a * 256 + b) bs acc).
Proof.
  induction bs as [|b bs IH]; intros acc Hbs; simpl; [reflexivity|].
  inversion Hbs as [|? ? Hb Hbs']; subst.
  destruct (byte_nibbles b Hb) as [Hhi Hlo].
  rewrite (digit16_hexdigit _ Hhi), (digit16_hexdigit _ Hlo), (IH _ Hbs').
  do 2 f_equal. pose proof (Z.div_mod b 16). lia.
Qed.

(** Parsing the hexadecimal rendering of a non-empty byte string gives the
    integer the bytes denote, most significant byte first. *)
Lemma int16_hex bs :
  Forall is_byte bs -> bs <> [] -> int16 (hex bs) = Ok (Sha256.be_int bs).
Proof.
  intros Hbs Hne. unfold int16, Sha256.be_int.
  rewrite (int16_digits_hex bs 0 Hbs).
  destruct bs; [congruence | reflexivity].
Qed.

Lemma int16_gen_hash c : int16 (gen_hash c) = Ok (digest_value c).
Proof.
  unfold gen_hash, digest_value. apply int16_hex; [apply digest_bytes|].
  intros E. pose proof (digest_length (encode c)) as L. rewrite E in L.
  discriminate L.
Qed.

(** ** Drawing candidates *)

Lemma gen_nonce_eq g : gen_nonce g = Ok (draw g, advance g).
Proof. reflexivity. Qed.

Lemma draw_candidate g : draw g = candidate g 0.
Proof. unfold draw, candidate. now rewrite Nat.add_0_r. Qed.

Lemma candidate_advance g k : candidate (advance g) k = candidate g (S k).
Proof. unfold candidate, advance. simpl. do 3 f_equal. lia. Qed.

Lemma skip_advance g k : skip k (advance g) = skip (S k) g.
Proof. unfold skip, advance. simpl. f_equal. lia. Qed.

(** ** The redraw loop *)

Section Redraw.

Import Miner.

Variable tried : gset string.
Variable extra : Z.

#[local] Abbreviation bound := (Z.of_nat (size tried) + extra).

(** One turn of the loop. *)
Lemma redraw_step nonce attempts g :
  redraw tried extra nonce attempts g =
  if decide (nonce ∈ tried) then
    if decide (attempts + 1 > bound) then Ok (GaveUp, advance g)
    else redraw tried extra (draw g) (attempts + 1) (advance g)
  else Ok (Fresh nonce, g).
Proof.
  rewrite redraw_unfold_eq. unfold redraw_unfold.
  destruct (decide (nonce ∈ tried)) as [Hin|Hout]; simpl; [|reflexivity].
  fold (draw g). destruct (decide _); reflexivity.
Qed.

(** The loop always leaves, and what it leaves with was either never
    tried or nothing at all. *)
Lemma redraw_total nonce attempts g :
  exists r g', redraw tried extra nonce attempts g = Ok (r, g') /\
    match r with Fresh c => c ∉ tried | GaveUp => nonce ∈ tried end.
Proof.
  remember (Z.to_nat (bound + 1 - attempts)) as m eqn:Hm.
  revert nonce attempts g Hm.
  induction m as [m IH] using lt_wf_ind; intros nonce attempts g Hm.
  rewrite redraw_step.
  destruct (decide (nonce ∈ tried)) as [Hin|Hout];
    [|exists (Fresh nonce), g; split; [reflexivity | exact Hout]].
  destruct (decide (attempts + 1 > bound)) as [Hgt|Hle];
    [exists GaveUp, (advance g); split; [reflexivity | exact Hin]|].
  destruct (IH (Z.to_nat (bound + 1 - (attempts + 1))) ltac:(lia)
              (draw g) (attempts + 1) (advance g) eq_refl)
    as (r & g' & Hr & Hspec).
  exists r, g'. split; [exact Hr|].
  destruct r; [exact Hspec | exact Hin].
Qed.

(** Enough duplicates in a row make the loop give up: [nonce] and the
    [n - 1] candidates after it are [n] consecutive duplicates. *)
Lemma redraw_gives_up n : forall nonce attempts g,
  (0 < n)%nat ->
  attempts + Z.of_nat n > bound ->
  nonce ∈ tried ->
  consecutive_duplicates tried g (n - 1) = true ->
  exists k, redraw tried extra nonce attempts g = Ok (GaveUp, skip k g).
Proof.
  induction n as [|n IH]; intros nonce attempts g Hn Hgt Hin Hdup; [lia|].
  rewrite redraw_step. rewrite (decide_True _ _ Hin).
  destruct (decide (attempts + 1 > bound)) as [Hnow|Hlater].
  - exists 1%nat. f_equal. f_equal. unfold skip, advance. f_equal. lia.
  - destruct n as [|n]; [lia|].
    replace (S (S n) - 1)%nat with (S n) in Hdup by lia.
    unfold consecutive_duplicates in Hdup. simpl in Hdup.
    apply andb_prop in Hdup as [H0 Hrest].
    apply bool_decide_eq_true in H0.
    destruct (IH (draw g) (attempts + 1) (advance g)) as [k Hk].
    + lia.
    + lia.
    + now rewrite draw_candidate.
    + replace (S n - 1)%nat with n by lia.
      unfold consecutive_duplicates.
      rewrite forallb_forall in *. intros j Hj.
      rewrite candidate_advance. apply (Hrest (S j)).
      apply in_seq in Hj. apply in_seq. lia.
    + exists (S k). rewrite Hk, skip_advance. reflexivity.
Qed.

End Redraw.

(** ** One forward pass of the miner *)

Section MinerStep.

Import Miner.

(** The three ways a search step ends: not searching any more, giving
    up, or a guess. *)
Lemma search_step_cases cur synapse g :
  (still_trying cur = false /\
   search_step cur synapse g = Ok (cur, synapse, g)) \/
  (still_trying cur = true /\ (draw g ∈ nonces cur) /\
   exists g', search_step cur synapse g = Ok (exhausted cur, synapse, g')) \/
  (still_trying cur = true /\
   exists c g', (c ∉ nonces cur) /\
     search_step cur synapse g =
       Ok (Mk ({[c]} ∪ nonces cur) (last_block_id cur) (extra_attempts cur) true,
           answer synapse (Some c), g')).
Proof.
  unfold search_step.
  destruct (still_trying cur) eqn:Htry; cbn [negb]; [right | left; auto].
  rewrite gen_nonce_eq. pysimpl.
  destruct (redraw_total (nonces cur) (extra_attempts cur) (draw g) 0 (advance g))
    as (r & g' & Hr & Hspec).
  rewrite Hr. pysimpl. destruct r as [c|].
  - right. split; [reflexivity|]. exists c, g'. split; [exact Hspec|].
    rewrite int16_gen_hash. reflexivity.
  - left. split; [reflexivity|]. split; [exact Hspec|].
    exists g'. reflexivity.
Qed.

(** [forward] never raises. *)
Lemma forward_total self synapse g :
  exists out, forward self synapse g = Ok out.
Proof.
  unfold forward.
  destruct (search_step_cases (begin_round self synapse) synapse g)
    as [[_ H] | [(_ & _ & g' & H) | (_ & c & g' & _ & H)]]; rewrite H; eauto.
Qed.

Lemma begin_round_same self synapse :
  last_block_id self = Some (block_id synapse) -> begin_round self synapse = self.
Proof.
  intros H. unfold begin_round. rewrite H.
  destruct (decide _) as [Hne|_]; [congruence | reflexivity].
Qed.

Lemma begin_round_new self synapse :
  last_block_id self <> Some (block_id synapse) ->
  begin_round self synapse =
    Mk ∅ (Some (block_id synapse)) (extra_attempts self) true.
Proof.
  intros H. unfold begin_round.
  destruct (decide _) as [_|Heq]; [reflexivity|].
  exfalso. apply H. destruct (last_block_id self) as [b|].
  - destruct (decide (b = block_id synapse)) as [->|Hb]; [reflexivity|].
    exfalso. apply Heq. congruence.
  - exfalso. apply Heq. discriminate.
Qed.

Lemma begin_round_last self synapse :
  last_block_id (begin_round self synapse) = Some (block_id synapse).
Proof.
  destruct (decide (last_block_id self = Some (block_id synapse))) as [H|H].
  - now rewrite begin_round_same.
  - now rewrite begin_round_new.
Qed.

Lemma search_step_exhausted cur synapse g :
  search_step (exhausted cur) synapse g = Ok (exhausted cur, synapse, g).
Proof. reflexivity. Qed.

Lemma consecutive_duplicates_S tried g n :
  consecutive_duplicates tried g (S n) = true ->
  draw g ∈ tried /\ consecutive_duplicates tried (advance g) n = true.
Proof.
  unfold consecutive_duplicates. rewrite !forallb_forall. intros H. split.
  - rewrite draw_candidate.
    assert (H0 : bool_decide (candidate g 0 ∈ tried) = true)
      by (apply H, in_seq; lia).
    now apply bool_decide_eq_true in H0.
  - intros k Hk. rewrite candidate_advance. apply H.
    apply in_seq in Hk. apply in_seq. lia.
Qed.

(** A step that meets more consecutive duplicates than the slack bound
    allows ends in [exhausted]. *)
Lemma search_step_gives_up cur synapse g n :
  still_trying cur = true ->
  (0 < n)%nat ->
  Z.of_nat n > Z.of_nat (size (nonces cur)) + extra_attempts cur ->
  consecutive_duplicates (nonces cur) g n = true ->
  exists g', search_step cur synapse g = Ok (exhausted cur, synapse, g').
Proof.
  intros Htry Hn Hgt Hdup. destruct n as [|n]; [lia|].
  apply consecutive_duplicates_S in Hdup as [H0 Hrest].
  destruct (redraw_gives_up (nonces cur) (extra_attempts cur) (S n)
              (draw g) 0 (advance g)) as [k Hk]; try assumption; try lia.
  { now replace (S n - 1)%nat with n by lia. }
  exists (skip k (advance g)).
  unfold search_step. rewrite Htry. cbn [negb].
  rewrite gen_nonce_eq. pysimpl. rewrite Hk. reflexivity.
Qed.

(** The first step of a round guesses its first draw. *)
Lemma forward_new_round self synapse g :
  last_block_id self <> Some (block_id synapse) ->
  forward self synapse g =
    Ok (Mk {[draw g]} (Some (block_id synapse))
                 (extra_attempts self) true,
        answer synapse (Some (draw g)), advance g).
Proof.
  intros Hnew. unfold forward. rewrite begin_round_new by exact Hnew.
  unfold search_step. cbn [still_trying negb nonces
    extra_attempts last_block_id].
  rewrite gen_nonce_eq. pysimpl. rewrite redraw_step.
  rewrite decide_False by set_solver. pysimpl.
  rewrite int16_gen_hash. pysimpl. cbn [answer].
  now rewrite (right_id_L ∅ (∪)).
Qed.

(** Once exhausted, a miner hands every request of the same round back
    as it came, and neither its state nor the generator moves. *)
Lemma serve_exhausted cur b reqs : forall g,
  last_block_id cur = Some b ->
  Forall (fun req => block_id req = b) reqs ->
  serve (exhausted cur) reqs g = Ok (exhausted cur, reqs, g).
Proof.
  intros g Hlast Hreqs. revert g.
  induction Hreqs as [|req reqs Hreq _ IH]; intros g; [reflexivity|].
  cbn [serve]. unfold forward.
  rewrite begin_round_same by (cbn; congruence).
  rewrite search_step_exhausted. pysimpl. rewrite IH. reflexivity.
Qed.

End MinerStep.

(** ** Exhaustion of the search *)

(** C1. A search step run while the miner is still searching always
    returns, and without raising.  When the candidates it draws are
    duplicates more than [len(self.nonces) + self.extra_attempts] times in
    a row (the slack is 10 in a new miner), the miner becomes exhausted
    ([still_trying] false) and hands the request back unmodified.  From
    then on every request of the same round comes back unmodified as well,
    whatever the generator holds and however many requests follow; a
    request for another block id sets the miner searching again. *)
Theorem miner_exhaustion self synapse g :
  let cur := Miner.begin_round self synapse in
  Miner.still_trying cur = true ->
  (exists out, Miner.forward self synapse g = Ok out) /\
  Miner.extra_attempts Miner.init = 10 /\
  forall n : nat,
    (0 < n)%nat ->
    Z.of_nat n > Z.of_nat (size (Miner.nonces cur)) + Miner.extra_attempts cur ->
    consecutive_duplicates (Miner.nonces cur) g n = true ->
    exists g',
      Miner.forward self synapse g = Ok (exhausted cur, synapse, g') /\
      Miner.still_trying (exhausted cur) = false /\
      (forall reqs g2,
         Forall (fun req => block_id req = block_id synapse) reqs ->
         serve (exhausted cur) reqs g2 = Ok (exhausted cur, reqs, g2)) /\
      (forall req g2,
         block_id req <> block_id synapse ->
         Miner.forward (exhausted cur) req g2 =
           Ok (Miner.Mk {[draw g2]} (Some (block_id req))
                        (Miner.extra_attempts cur) true,
               answer req (Some (draw g2)), advance g2)).
Proof.
  intros cur Htry. split; [apply forward_total|]. split; [reflexivity|].
  intros n Hn Hgt Hdup.
  destruct (search_step_gives_up cur synapse g n Htry Hn Hgt Hdup) as [g' Hg'].
  exists g'. split; [exact Hg'|]. split; [reflexivity|].
  pose proof (begin_round_last self synapse) as Hlast. fold cur in Hlast.
  split.
  - intros reqs g2 Hreqs.
    now apply serve_exhausted with (b := block_id synapse).
  - intros req g2 Hother.
    apply (forward_new_round (exhausted cur) req g2).
    cbn [exhausted Miner.last_block_id]. rewrite Hlast. congruence.
Qed.

Lemma miner_exhaustion_witness :
  exists g',
    Miner.forward stuck_miner (challenge 7) (tape_of [4]) =
      Ok (exhausted stuck_miner, challenge 7, g') /\
    forall reqs g2,
      Forall (fun req => block_id req = 7) reqs ->
      serve (exhausted stuck_miner) reqs g2 = Ok (exhausted stuck_miner, reqs, g2).
Proof.
  destruct (miner_exhaustion stuck_miner (challenge 7) (tape_of [4]) eq_refl)
    as (_ & _ & H).
  destruct (H 4%nat) as (g' & Hg' & _ & Hlater & _);
    [lia | vm_compute; reflexivity | vm_compute; reflexivity |].
  exists g'. split; [exact Hg' | exact Hlater].
Defined.

(** C10. A search step that leaves through the exhaustion branch, that is
    one that starts searching and ends not searching, changes nothing but
    [still_trying]: the tried set is the one the loop was entered with, so
    no candidate drawn in the loop was recorded, and the synapse comes back
    with the same [hash] and [block_id]. *)
Theorem exhaustion_frame self synapse g self' synapse' g' :
  let cur := Miner.begin_round self synapse in
  Miner.forward self synapse g = Ok (self', synapse', g') ->
  Miner.still_trying cur = true ->
  Miner.still_trying self' = false ->
  Miner.nonces self' = Miner.nonces cur /\
  Miner.last_block_id self' = Miner.last_block_id cur /\
  Miner.extra_attempts self' = Miner.extra_attempts cur /\
  synapse' = synapse /\
  hash synapse' = hash synapse /\
  block_id synapse' = block_id synapse.
Proof.
  intros cur Hfwd Htry Hstop. unfold Miner.forward in Hfwd. fold cur in Hfwd.
  destruct (search_step_cases cur synapse g)
    as [[Hoff _] | [(_ & _ & g1 & H) | (_ & c & g1 & _ & H)]].
  - congruence.
  - rewrite H in Hfwd. injection Hfwd as <- <- _. now repeat split.
  - rewrite H in Hfwd. injection Hfwd as <- _ _. discriminate Hstop.
Qed.

Lemma exhaustion_frame_witness :
  Miner.nonces (exhausted stuck_miner) = Miner.nonces stuck_miner /\
  Miner.last_block_id (exhausted stuck_miner) = Some 7 /\
  Miner.extra_attempts (exhausted stuck_miner) = 2 /\
  challenge 7 = challenge 7 /\
  hash (challenge 7) = None /\
  block_id (challenge 7) = 7.
Proof.
  apply (exhaustion_frame stuck_miner (challenge 7) (tape_of [4])
           (exhausted stuck_miner) (challenge 7) (skip 5 (tape_of [4])));
    [vm_compute; reflexivity | reflexivity | reflexivity].
Defined.

(** ** Runs of requests within one round *)

Section MinerRun.

Import Miner.

Lemma forward_begin_round self req g :
  forward (begin_round self req) req g = forward self req g.
Proof.
  unfold forward. now rewrite (begin_round_same (begin_round self req)) by
    apply begin_round_last.
Qed.

Lemma serve_begin_round self req reqs g :
  serve (begin_round self req) (req :: reqs) g = serve self (req :: reqs) g.
Proof. cbn [serve]. now rewrite forward_begin_round. Qed.

(** The invariant of a run inside round [b]: the candidates picked are
    pairwise distinct, none was tried before, and the tried set grows by
    exactly them. *)
Lemma serve_round b reqs : forall self g,
  last_block_id self = Some b ->
  Forall (fun req => block_id req = b) reqs ->
  exists self' picks g',
    serve self reqs g = Ok (self', zip_with answer reqs picks, g') /\
    length picks = length reqs /\
    NoDup (picked picks) /\
    (forall c, c ∈ picked picks -> c ∉ nonces self) /\
    nonces self' = list_to_set (picked picks) ∪ nonces self /\
    last_block_id self' = Some b.
Proof.
  induction reqs as [|req reqs IH]; intros self g Hlast Hreqs.
  - exists self, [], g. cbn. repeat split; auto.
    + constructor.
    + intros c Hc. inversion Hc.
    + set_solver.
  - inversion Hreqs as [|? ? Hreq Hrest]; subst.
    cbn [serve]. unfold forward. rewrite begin_round_same by exact Hlast.
    destruct (search_step_cases self req g)
      as [[_ H] | [(_ & _ & g1 & H) | (_ & c & g1 & Hnew & H)]];
      rewrite H; pysimpl.
    + destruct (IH self g Hlast Hrest)
        as (self' & picks & g' & Hrun & Hlen & Hnd & Hfresh & Hset & Hl).
      exists self', (None :: picks), g'. rewrite Hrun. pysimpl.
      cbn [length]. repeat split; auto.
    + destruct (IH (exhausted self) g1 Hlast Hrest)
        as (self' & picks & g' & Hrun & Hlen & Hnd & Hfresh & Hset & Hl).
      exists self', (None :: picks), g'. rewrite Hrun. pysimpl.
      cbn [length]. repeat split; auto.
    + destruct (IH (Mk ({[c]} ∪ nonces self) (last_block_id self)
                       (extra_attempts self) true) g1 Hlast Hrest)
        as (self' & picks & g' & Hrun & Hlen & Hnd & Hfresh & Hset & Hl).
      cbn [nonces] in Hfresh, Hset.
      exists self', (Some c :: picks), g'. rewrite Hrun. pysimpl.
      cbn [length]. repeat split; auto.
      * change (picked (Some c :: picks)) with (c :: picked picks).
        apply NoDup_cons. split; [|exact Hnd].
        intros Hc. apply (Hfresh c Hc). set_solver.
      * change (picked (Some c :: picks)) with (c :: picked picks).
        intros c' Hc'. apply elem_of_cons in Hc' as [->|Hc']; [exact Hnew|].
        specialize (Hfresh c' Hc'). set_solver.
      * change (picked (Some c :: picks)) with (c :: picked picks).
        rewrite Hset. set_solver.
Qed.

End MinerRun.

(** C2. Along any sequence of search steps for one block id, starting
    from any miner state, the miner never raises, and the candidates it
    picks are pairwise distinct and were not in the tried set the round
    started with: each candidate is found absent from the tried set before
    it is added and before its digest value is put in the response.  The
    tried set ends as the starting set plus exactly the candidates picked,
    one new element for each. *)
Theorem tried_set_no_duplicates self reqs g b :
  Forall (fun req => block_id req = b) reqs ->
  exists self' picks g',
    serve self reqs g = Ok (self', zip_with answer reqs picks, g') /\
    length picks = length reqs /\
    NoDup (picked picks) /\
    (forall c, c ∈ picked picks -> c ∉ Miner.nonces (round_start self reqs)) /\
    Miner.nonces self' =
      list_to_set (picked picks) ∪ Miner.nonces (round_start self reqs) /\
    size (Miner.nonces self') =
      (length (picked picks) + size (Miner.nonces (round_start self reqs)))%nat.
Proof.
  intros Hreqs.
  assert (exists self' picks g',
    serve self reqs g = Ok (self', zip_with answer reqs picks, g') /\
    length picks = length reqs /\
    NoDup (picked picks) /\
    (forall c, c ∈ picked picks -> c ∉ Miner.nonces (round_start self reqs)) /\
    Miner.nonces self' =
      list_to_set (picked picks) ∪ Miner.nonces (round_start self reqs))
    as (self' & picks & g' & Hrun & Hlen & Hnd & Hfresh & Hset).
  { destruct reqs as [|req reqs].
    - exists self, [], g. cbn. repeat split; auto.
      + constructor.
      + intros c Hc. inversion Hc.
      + set_solver.
    - cbn [round_start]. rewrite <- serve_begin_round.
      inversion Hreqs as [|? ? Hreq Hrest]; subst.
      destruct (serve_round (block_id req) (req :: reqs)
                  (Miner.begin_round self req) g (begin_round_last self req) Hreqs)
        as (self' & picks & g' & H1 & H2 & H3 & H4 & H5 & _).
      exists self', picks, g'. auto. }
  exists self', picks, g'. repeat split; auto.
  rewrite Hset, size_union, size_list_to_set by (auto; set_solver).
  reflexivity.
Qed.

(** The first end-to-end scenario on the miner's side: it draws 3, then 3
    again, which it redraws, then 7. *)
Example miner_guesses_3_then_7 :
  serve Miner.init [challenge 7; challenge 7] (tape_of [3; 3; 7]) =
    Ok (Miner.Mk {["3"; "7"]}%string (Some 7) 10 true,
        [answer (challenge 7) (Some "3"%string);
         answer (challenge 7) (Some "7"%string)],
        skip 3 (tape_of [3; 3; 7])).
Proof. vm_compute. reflexivity. Qed.

Lemma tried_set_no_duplicates_witness :
  exists self' picks g',
    serve Miner.init [challenge 7; challenge 7; challenge 7] (tape_of [3; 3; 7; 3; 7; 25]) =
      Ok (self', zip_with answer [challenge 7; challenge 7; challenge 7] picks, g') /\
    NoDup (picked picks) /\
    size (Miner.nonces self') = (length (picked picks) + 0)%nat.
Proof.
  destruct (tried_set_no_duplicates Miner.init
              [challenge 7; challenge 7; challenge 7]
              (tape_of [3; 3; 7; 3; 7; 25]) 7)
    as (self' & picks & g' & Hrun & _ & Hnd & _ & _ & Hsize).
  - repeat constructor.
  - exists self', picks, g'. repeat split; [exact Hrun | exact Hnd | exact Hsize].
Defined.

(** ** Round changes *)

Section ValidatorPass.

Context {Base World Reward : Type}.
Variable get_random_uids : Validator.t Base -> World -> rng -> list nat * rng.
Variable dendrite : list nat -> Dummy -> World -> list (option Z) * World.
Variable get_rewards :
  Validator.t Base -> list (option Z) -> Validator.t Base * list Reward.
Variable update_scores :
  Validator.t Base -> list Reward -> list nat -> Validator.t Base.

#[local] Abbreviation vforward :=
  (Validator.forward get_random_uids dendrite get_rewards update_scores).
#[local] Abbreviation vquery :=
  (Validator.query get_random_uids dendrite get_rewards update_scores).
#[local] Abbreviation vpasses :=
  (Validator.passes get_random_uids dendrite get_rewards update_scores).

Lemma commit_new_block (self : Validator.t Base) block g :
  Validator.last_block self <> Some block ->
  Validator.commit self block g =
    Ok (Validator.Mk true (digest_value (draw g)) (Some block)
                     (Validator.step self) (Validator.base self), advance g).
Proof.
  intros Hnew. unfold Validator.commit. rewrite decide_True by exact Hnew.
  rewrite gen_nonce_eq. pysimpl. rewrite int16_gen_hash. reflexivity.
Qed.

Lemma commit_same_block (self : Validator.t Base) block g :
  Validator.last_block self = Some block ->
  Validator.commit self block g = Ok (self, g).
Proof.
  intros Hsame. unfold Validator.commit.
  rewrite decide_False by (intros H; now apply H). reflexivity.
Qed.

Lemma forward_new_block (self : Validator.t Base) block g w :
  Validator.last_block self <> Some block ->
  vforward self block g w =
    Ok (vquery (Validator.Mk true (digest_value (draw g)) (Some block)
                             (Validator.step self + 1) (Validator.base self))
               block (advance g) w).
Proof.
  intros Hnew. unfold Validator.forward.
  rewrite commit_new_block by exact Hnew. reflexivity.
Qed.

Lemma forward_found (self : Validator.t Base) block g w :
  Validator.nonce_not_found self = false ->
  Validator.last_block self = Some block ->
  vforward self block g w = Ok (self, g, w, []).
Proof.
  intros Hfound Hsame. unfold Validator.forward.
  rewrite commit_same_block by exact Hsame. pysimpl.
  now rewrite Hfound.
Qed.

Lemma passes_found (self : Validator.t Base) block g w n :
  Validator.nonce_not_found self = false ->
  Validator.last_block self = Some block ->
  vpasses n self block g w = Ok (self, g, w, []).
Proof.
  intros Hfound Hsame. induction n as [|n IH]; [reflexivity|].
  cbn [Validator.passes].
  rewrite forward_found by assumption. pysimpl.
  rewrite IH. reflexivity.
Qed.

End ValidatorPass.

(** C3. A block id other than the last one seen makes the miner clear its
    tried set and search again ([still_trying] true), so that the step runs
    on the empty set and its first draw is the guess; and it makes the
    validator set [nonce_not_found], draw a new secret and store the
    secret's digest value as the target, all before the query of the new
    round is made. *)
Theorem round_change_resets {Base World Reward : Type}
    (get_random_uids : Validator.t Base -> World -> rng -> list nat * rng)
    (dendrite : list nat -> Dummy -> World -> list (option Z) * World)
    (get_rewards :
       Validator.t Base -> list (option Z) -> Validator.t Base * list Reward)
    (update_scores :
       Validator.t Base -> list Reward -> list nat -> Validator.t Base)
    (miner : Miner.t) (synapse : Dummy) (g : rng)
    (validator : Validator.t Base) (block : Z) (gv : rng) (w : World) :
  (Miner.last_block_id miner <> Some (block_id synapse) ->
   let fresh := Miner.Mk ∅ (Some (block_id synapse))
                         (Miner.extra_attempts miner) true in
   Miner.begin_round miner synapse = fresh /\
   Miner.forward miner synapse g = Miner.search_step fresh synapse g /\
   Miner.forward miner synapse g =
     Ok (Miner.Mk {[draw g]} (Some (block_id synapse))
                  (Miner.extra_attempts miner) true,
         answer synapse (Some (draw g)), advance g)) /\
  (Validator.last_block validator <> Some block ->
   let committed step :=
     Validator.Mk true (digest_value (draw gv)) (Some block) step
                  (Validator.base validator) in
   Validator.commit validator block gv =
     Ok (committed (Validator.step validator), advance gv) /\
   Validator.forward get_random_uids dendrite get_rewards update_scores
       validator block gv w =
     Ok (Validator.query get_random_uids dendrite get_rewards update_scores
           (committed (Validator.step validator + 1)) block (advance gv) w)).
Proof.
  split.
  - intros Hnew fresh. split; [now apply begin_round_new|].
    split; [|now apply forward_new_round].
    unfold Miner.forward. now rewrite begin_round_new.
  - intros Hnew committed. split; [now apply commit_new_block|].
    now apply forward_new_block.
Qed.

Lemma round_change_resets_witness :
  Miner.forward stuck_miner (challenge 8) (tape_of [4]) =
    Ok (Miner.Mk {["4"%string]} (Some 8) 2 true,
        answer (challenge 8) (Some "4"%string), advance (tape_of [4])) /\
  Validator.forward pick_two nobody_answers no_rewards keep_scores
      resolved_validator 8 (tape_of [5]) tt =
    Ok (Validator.Mk true (digest_value "5") (Some 8) 4 tt,
        advance (tape_of [5]), tt,
        [Validator.Challenge [0%nat; 1%nat] (challenge 8)]).
Proof.
  pose proof (round_change_resets pick_two nobody_answers no_rewards keep_scores
                stuck_miner (challenge 8) (tape_of [4])
                resolved_validator 8 (tape_of [5]) tt) as [Hm Hv].
  split.
  - apply Hm. discriminate.
  - apply Hv. discriminate.
Defined.

(** ** The validator after its secret was found *)

(** C4. Once [nonce_not_found] is false for the block the validator is
    at, a forward pass changes nothing and dispatches no challenge, and so
    does any number of further passes at that block. *)
Theorem found_round_is_noop {Base World Reward : Type}
    (get_random_uids : Validator.t Base -> World -> rng -> list nat * rng)
    (dendrite : list nat -> Dummy -> World -> list (option Z) * World)
    (get_rewards :
       Validator.t Base -> list (option Z) -> Validator.t Base * list Reward)
    (update_scores :
       Validator.t Base -> list Reward -> list nat -> Validator.t Base)
    (self : Validator.t Base) (block : Z) (g : rng) (w : World) :
  Validator.nonce_not_found self = false ->
  Validator.last_block self = Some block ->
  Validator.forward get_random_uids dendrite get_rewards update_scores
      self block g w = Ok (self, g, w, []) /\
  forall n,
    Validator.passes get_random_uids dendrite get_rewards update_scores
      n self block g w = Ok (self, g, w, []).
Proof.
  intros Hfound Hsame. split; [now apply forward_found|].
  intros n. now apply passes_found.
Qed.

Lemma found_round_is_noop_witness :
  Validator.forward pick_two nobody_answers no_rewards keep_scores
      resolved_validator 7 (tape_of [5]) tt =
    Ok (resolved_validator, tape_of [5], tt, []) /\
  forall n,
    Validator.passes pick_two nobody_answers no_rewards keep_scores
      n resolved_validator 7 (tape_of [5]) tt =
    Ok (resolved_validator, tape_of [5], tt, []).
Proof.
  apply (found_round_is_noop pick_two nobody_answers no_rewards keep_scores
           resolved_validator 7 (tape_of [5]) tt); reflexivity.
Defined.

(** ** The digest encoding *)

(** C5. The miner and the validator encode a candidate the same way,
    [int(gen_hash(c), 16)], and that value is the 32-byte hash read as a
    big-endian integer.  So when the candidate a miner's search picks is
    the secret the validator drew, the [hash] of the miner's response is
    the validator's target. *)
Theorem digest_encoding_agrees {Base : Type} (c : string)
    (cur : Miner.t) (synapse : Dummy) (g g' : rng)
    (validator : Validator.t Base) (block : Z) (gv : rng) :
  Miner.still_trying cur = true ->
  Miner.redraw (Miner.nonces cur) (Miner.extra_attempts cur) (draw g) 0
               (advance g) = Ok (Miner.Fresh c, g') ->
  Validator.last_block validator <> Some block ->
  draw gv = c ->
  int16 (gen_hash c) = Ok (digest_value c) /\
  length (Sha256.digest (encode c)) = 32%nat /\
  exists cur' synapse' validator',
    Miner.search_step cur synapse g = Ok (cur', synapse', g') /\
    Validator.commit validator block gv = Ok (validator', advance gv) /\
    hash synapse' = Some (digest_value c) /\
    Validator.nonce validator' = digest_value c /\
    hash synapse' = Some (Validator.nonce validator').
Proof.
  intros Htry Hpick Hnew Hsecret.
  split; [apply int16_gen_hash|]. split; [apply digest_length|].
  eexists _, _, _. split; [|split].
  - unfold Miner.search_step. rewrite Htry. cbn [negb].
    rewrite gen_nonce_eq. pysimpl. rewrite Hpick. pysimpl.
    rewrite int16_gen_hash. reflexivity.
  - rewrite commit_new_block by exact Hnew. rewrite Hsecret. reflexivity.
  - cbn. auto.
Qed.

Lemma digest_encoding_agrees_witness :
  int16 (gen_hash "7") = Ok (digest_value "7") /\
  length (Sha256.digest (encode "7")) = 32%nat /\
  exists cur' synapse' validator',
    Miner.search_step (Miner.Mk {["3"%string]} (Some 7) 10 true) (challenge 7)
        (tape_of [3; 7]) =
      Ok (cur', synapse', skip 2 (tape_of [3; 7])) /\
    Validator.commit resolved_validator 8 (tape_of [7]) =
      Ok (validator', advance (tape_of [7])) /\
    hash synapse' = Some (digest_value "7") /\
    Validator.nonce validator' = digest_value "7" /\
    hash synapse' = Some (Validator.nonce validator').
Proof.
  apply (digest_encoding_agrees "7" (Miner.Mk {["3"%string]} (Some 7) 10 true)
           (challenge 7) (tape_of [3; 7]) (skip 2 (tape_of [3; 7]))
           resolved_validator 8 (tape_of [7]));
    [reflexivity | vm_compute; reflexivity | discriminate | reflexivity].
Defined.

(** ** Stale round ids *)

(** The reading of C6 that fails: a request for a block older than the
    one the miner tracks is not left aside.  Here the miner is exhausted in
    round 5 with candidate 3 tried; a request for block 4 resets it to
    round 4 and gets a guess. *)
Lemma stale_round_not_discarded :
  let self := Miner.Mk {["3"%string]} (Some 5) 10 false in
  Miner.last_block_id self = Some 5 /\
  block_id (challenge 4) < 5 /\
  Miner.forward self (challenge 4) (tape_of [7]) =
    Ok (Miner.Mk {["7"%string]} (Some 4) 10 true,
        MkDummy 4 (Some (digest_value "7")) None, skip 1 (tape_of [7])) /\
  Miner.forward self (challenge 4) (tape_of [7]) <>
    Ok (self, challenge 4, tape_of [7]).
Proof.
  cbv zeta.
  assert (Miner.forward (Miner.Mk {["3"%string]} (Some 5) 10 false)
            (challenge 4) (tape_of [7]) =
          Ok (Miner.Mk {["7"%string]} (Some 4) 10 true,
              MkDummy 4 (Some (digest_value "7")) None, skip 1 (tape_of [7])))
    as Hrun by (vm_compute; reflexivity).
  split; [reflexivity|]. split; [reflexivity|]. split; [exact Hrun|].
  rewrite Hrun. intros Heq. injection Heq as _ Hlast _ _.
  discriminate Hlast.
Qed.

(** C6, amended. A request whose block id is older than the one the miner
    tracks is handled like any other change of block id: the miner moves to
    the request's block id, clears its tried set, searches again and
    answers with the digest value of its first draw; nothing is raised. *)
Theorem stale_round_restarts self synapse g b :
  Miner.last_block_id self = Some b ->
  block_id synapse < b ->
  Miner.forward self synapse g =
    Ok (Miner.Mk {[draw g]} (Some (block_id synapse))
                 (Miner.extra_attempts self) true,
        answer synapse (Some (draw g)), advance g).
Proof.
  intros Hlast Hold. apply forward_new_round.
  rewrite Hlast. intros Heq. injection Heq as ->. lia.
Qed.

Lemma stale_round_restarts_witness :
  Miner.forward (exhausted stuck_miner) (challenge 6) (tape_of [9]) =
    Ok (Miner.Mk {["9"%string]} (Some 6) 2 true,
        answer (challenge 6) (Some "9"%string), advance (tape_of [9])).
Proof.
  apply (stale_round_restarts (exhausted stuck_miner) (challenge 6)
           (tape_of [9]) 7); [reflexivity | reflexivity].
Defined.

(** ** The domain of candidates *)

(** The reading of C7 that fails: [gen_nonce] can return ["10"], which is
    none of ["0"] to ["9"]. *)
Lemma gen_nonce_returns_ten :
  gen_nonce (tape_of [10]) = Ok ("10"%string, advance (tape_of [10])) /\
  ~ In "10"%string decimal_digits.
Proof.
  split; [reflexivity|].
  cbn. intros H. repeat (destruct H as [H|H]; [discriminate H|]). exact H.
Qed.

(** C7, amended. Every value [gen_nonce] returns is the decimal string of
    an integer of the closed range from 0 to 10, that is one of the eleven
    strings ["0"] to ["10"]; the call never raises and consumes one draw;
    and each of the eleven is returned for some generator. *)
Theorem gen_nonce_range (g : rng) (k : Z) :
  (exists n, 0 <= n <= 10 /\
     gen_nonce g = Ok (str n, advance g) /\ In (str n) default_candidates) /\
  (0 <= k <= 10 -> gen_nonce (tape_of [k]) = Ok (str k, advance (tape_of [k]))).
Proof.
  split.
  - exists (tape g (cursor g) mod 11).
    assert (0 <= tape g (cursor g) mod 11 <= 10) as Hn
      by (pose proof (Z.mod_pos_bound (tape g (cursor g)) 11); lia).
    split; [exact Hn|]. split; [apply gen_nonce_eq|].
    assert (0 <= tape g (cursor g) mod 11 < 16) as Hc by lia.
    apply nibble_cases in Hc.
    repeat (destruct Hc as [Hc|Hc];
            [rewrite Hc in *; first [lia | vm_compute; tauto]|]).
    rewrite Hc in *. lia.
  - intros Hk. rewrite gen_nonce_eq. unfold draw. cbn.
    now rewrite Z.mod_small by lia.
Qed.

Lemma gen_nonce_range_witness :
  gen_nonce (tape_of [10]) = Ok (str 10, advance (tape_of [10])).
Proof. apply (gen_nonce_range (tape_of [10]) 10). lia. Defined.

(** ** The blacklist *)

(** Whoever is not among the registered hotkeys makes [blacklist] raise,
    whatever the configuration: [hotkeys.index] comes first. *)
Lemma index_absent x l : Miner.contains x l = false -> Miner.index x l = Raise ValueError.
Proof.
  induction l as [|y l IH]; cbn; [reflexivity|].
  intros H. apply orb_false_elim in H as [Hy Hl].
  apply bool_decide_eq_false in Hy. rewrite decide_False by exact Hy.
  now rewrite IH.
Qed.

Lemma blacklist_unregistered metagraph config synapse :
  Miner.contains (dendrite_hotkey synapse) (Miner.hotkeys metagraph) = false ->
  Miner.blacklist metagraph config synapse = Raise ValueError.
Proof. intros H. unfold Miner.blacklist. now rewrite index_absent. Qed.

(** C8, on the code. With hotkeys [alice] and [bob] registered and
    unregistered callers not allowed, a request from [mallory] is not
    answered with [(True, "Unrecognized hotkey")]: [blacklist] raises
    [ValueError]. *)
Theorem blacklist_unregistered_raises :
  Miner.blacklist (Miner.MkMetagraph ["alice"; "bob"]%string [true; false])
                  (Miner.MkBlacklistConfig false false)
                  (MkDummy 7 None (Some "mallory"%string)) = Raise ValueError.
Proof. reflexivity. Qed.

(** ** The digest *)

Lemma sha256_of_candidates_covers n :
  0 <= n <= 10 -> exists d, In (n, d) sha256_of_candidates.
Proof.
  intros Hn. assert (0 <= n < 16) as Hc by lia.
  apply nibble_cases in Hc.
  repeat (destruct Hc as [Hc|Hc];
          [subst n; first [lia | eexists; cbn; tauto]|]).
  subst n. lia.
Qed.

(** C9. [gen_hash] is a function of its argument alone, and its result is
    the hexadecimal rendering of the 32 bytes of the SHA-256 hash of the
    string's encoding: 64 characters, each one of [0123456789abcdef].  For
    every candidate, the decimal string of 0 to 10, and so for whatever
    [gen_nonce] draws, the result is the SHA-256 digest of that string as
    the reference data give it; the eleven digests are pairwise distinct;
    and the test messages of the standard hash to their published
    digests. *)
Theorem gen_hash_sha256_hex (c : string) :
  gen_hash c = hex (Sha256.digest (encode c)) /\
  length (Sha256.digest (encode c)) = 32%nat /\
  Forall is_byte (Sha256.digest (encode c)) /\
  String.length (gen_hash c) = 64%nat /\
  Forall (fun ch => In ch hex_alphabet) (list_ascii_of_string (gen_hash c)) /\
  (forall c', c' = c -> gen_hash c' = gen_hash c) /\
  (forall n d, In (n, d) sha256_of_candidates -> gen_hash (str n) = d) /\
  (forall g, exists n d,
     gen_nonce g = Ok (str n, advance g) /\
     In (n, d) sha256_of_candidates /\ gen_hash (str n) = d) /\
  NoDup (map snd sha256_of_candidates) /\
  (forall m d, In (m, d) sha256_test_vectors -> gen_hash m = d).
Proof.
  assert (forall n d, In (n, d) sha256_of_candidates -> gen_hash (str n) = d)
    as Htable.
  { intros n d Hin. cbn in Hin.
    repeat (destruct Hin as [Hin|Hin];
            [injection Hin as <- <-; vm_compute; reflexivity|]).
    contradiction. }
  split; [reflexivity|]. split; [apply digest_length|].
  split; [apply digest_bytes|]. split.
  { unfold gen_hash. now rewrite hex_length, digest_length. }
  split; [apply hex_chars, digest_bytes|]. split; [now intros c' ->|].
  split; [exact Htable|]. split; [|split].
  - intros g.
    pose proof (Z.mod_pos_bound (tape g (cursor g)) 11 ltac:(lia)) as Hr.
    destruct (sha256_of_candidates_covers (tape g (cursor g) mod 11) ltac:(lia))
      as [d Hd].
    exists (tape g (cursor g) mod 11), d.
    split; [apply gen_nonce_eq|]. split; [exact Hd | now apply Htable].
  - apply (bool_decide_unpack _). vm_compute. exact I.
  - intros m d Hin. cbn in Hin.
    repeat (destruct Hin as [Hin|Hin];
            [injection Hin as <- <-; vm_compute; reflexivity|]).
    contradiction.
Qed.

Lemma gen_hash_sha256_hex_witness :
  gen_hash (str 7) =
    "7902699be42c8a8e46fbbb4501726517e86b22c56a189f7625a6da49081b2451"%string.
Proof.
  destruct (gen_hash_sha256_hex EmptyString) as (_ & _ & _ & _ & _ & _ & H & _).
  apply (H 7). cbn. tauto.
Defined.

(** The constants come out as the standard lists them. *)
Example sha256_constants :
  length Sha256.primes64 = 64%nat /\
  nth 63 Sha256.primes64 0 = 311 /\
  nth 0 Sha256.K 0 = 0x428a2f98 /\
  nth 63 Sha256.K 0 = 0xc67178f2 /\
  Sha256.ra Sha256.H0 = 0x6a09e667 /\
  Sha256.rh Sha256.H0 = 0x5be0cd19.
Proof. vm_compute. repeat split. Qed.

(** Known answers: the standard test vectors of SHA-256 and the target of
    the first end-to-end scenario of the specification. *)
Example encode_two_bytes :
  encode (String (ascii_of_nat 233) EmptyString) = [195; 169].
Proof. reflexivity. Qed.

Example gen_hash_abc :
  gen_hash "abc" =
    "ba7816bf8f01cfea414140de5dae2223b00361a396177a9cb410ff61f20015ad"%string.
Proof. vm_compute. reflexivity. Qed.

Example gen_hash_empty :
  gen_hash "" =
    "e3b0c44298fc1c149afbf4c8996fb92427ae41e4649b934ca495991b7852b855"%string.
Proof. vm_compute. reflexivity. Qed.

Example gen_hash_two_blocks :
  gen_hash "abcdbcdecdefdefgefghfghighijhijkijkljklmklmnlmnomnopnopq" =
    "248d6a61d20638b8e5c026930c3e6039a33ce45964ff2167f6ecedd419db06c1"%string.
Proof. vm_compute. reflexivity. Qed.

Example gen_hash_seven :
  gen_hash (str 7) =
    "7902699be42c8a8e46fbbb4501726517e86b22c56a189f7625a6da49081b2451"%string.
Proof. vm_compute. reflexivity. Qed.

(** * Further properties of the code *)

(** ** What the redraw loop draws *)

Lemma skip_0 g : skip 0 g = g.
Proof. destruct g as [t c]. unfold skip. cbn. f_equal. lia. Qed.

Lemma skip_1 g : skip 1 g = advance g.
Proof. unfold skip, advance. f_equal. lia. Qed.

Lemma examined_shift nonce g j :
  examined (draw g) (advance g) j = examined nonce g (S j).
Proof.
  destruct j as [|j]; cbn [examined].
  - apply draw_candidate.
  - apply candidate_advance.
Qed.

Section RedrawTrace.

Import Miner.

Variable tried : gset string.
Variable extra : Z.

#[local] Abbreviation budget := (Z.of_nat (size tried) + extra).

(** The loop redraws [k] times: everything it looked at before was a
    duplicate; it leaves with the first candidate that is not, or gives up
    at the first redraw that takes [attempts] past the budget. *)
Lemma redraw_trace nonce attempts g :
  exists k : nat,
    (forall j, (j < k)%nat -> examined nonce g j ∈ tried) /\
    (((examined nonce g k ∉ tried) /\
      (k = 0%nat \/ attempts + Z.of_nat k <= budget) /\
      redraw tried extra nonce attempts g =
        Ok (Fresh (examined nonce g k), skip k g)) \/
     ((1 <= k)%nat /\
      attempts + Z.of_nat k = Z.max (attempts + 1) (budget + 1) /\
      redraw tried extra nonce attempts g = Ok (GaveUp, skip k g))).
Proof.
  remember (Z.to_nat (budget + 1 - attempts)) as m eqn:Hm.
  revert nonce attempts g Hm.
  induction m as [m IH] using lt_wf_ind; intros nonce attempts g Hm.
  rewrite redraw_step.
  destruct (decide (nonce ∈ tried)) as [Hin|Hout].
  - destruct (decide (attempts + 1 > budget)) as [Hgt|Hle].
    + exists 1%nat. split.
      * intros j Hj. replace j with 0%nat by lia. exact Hin.
      * right. split; [lia|]. split; [lia|]. now rewrite skip_1.
    + destruct (IH (Z.to_nat (budget + 1 - (attempts + 1))) ltac:(lia)
                  (draw g) (attempts + 1) (advance g) eq_refl)
        as (k & Hdup & Hend).
      exists (S k). split.
      * intros [|j] Hj; [exact Hin|].
        rewrite <- (examined_shift nonce). apply Hdup. lia.
      * rewrite <- (examined_shift nonce), <- skip_advance.
        destruct Hend as [(Hnew & Hk & Hrun) | (Hk1 & Hk & Hrun)].
        -- left. split; [exact Hnew|]. split; [right; lia | exact Hrun].
        -- right. split; [lia|]. split; [lia | exact Hrun].
  - exists 0%nat. split; [intros j Hj; lia|].
    left. split; [exact Hout|]. split; [now left | now rewrite skip_0].
Qed.

End RedrawTrace.

Lemma consecutive_duplicates_spec tried g n :
  consecutive_duplicates tried g n = true <->
  forall j, (j < n)%nat -> candidate g j ∈ tried.
Proof.
  unfold consecutive_duplicates. rewrite forallb_forall. split.
  - intros H j Hj.
    assert (Hb : bool_decide (candidate g j ∈ tried) = true)
      by (apply H, in_seq; lia).
    now apply bool_decide_eq_true in Hb.
  - intros H j Hj. apply bool_decide_eq_true, H. apply in_seq in Hj. lia.
Qed.

Lemma candidate_domain g k : candidate g k ∈ domain_set.
Proof.
  unfold candidate.
  pose proof (Z.mod_pos_bound (tape g (cursor g + k)%nat) 11 ltac:(lia)) as Hr.
  assert (0 <= tape g (cursor g + k)%nat mod 11 < 16) as Hc by lia.
  apply nibble_cases in Hc.
  repeat (destruct Hc as [Hc|Hc];
          [rewrite Hc in *; first [lia | now vm_compute]|]).
  rewrite Hc in *. lia.
Qed.

Section SearchTrace.

Import Miner.

(** A search step as a function of the draws: it skips the leading
    duplicates and guesses the first candidate that is new, unless the
    duplicates outlast the budget. *)
Lemma search_step_trace cur synapse g :
  still_trying cur = true ->
  exists k : nat,
    consecutive_duplicates (nonces cur) g k = true /\
    (((candidate g k ∉ nonces cur) /\
      (k = 0%nat \/
       Z.of_nat k <= Z.of_nat (size (nonces cur)) + extra_attempts cur) /\
      search_step cur synapse g =
        Ok (Mk ({[candidate g k]} ∪ nonces cur) (last_block_id cur)
               (extra_attempts cur) true,
            answer synapse (Some (candidate g k)), skip (S k) g)) \/
     ((1 <= k)%nat /\
      Z.of_nat k =
        Z.max 1 (Z.of_nat (size (nonces cur)) + extra_attempts cur + 1) /\
      search_step cur synapse g = Ok (exhausted cur, synapse, skip (S k) g))).
Proof.
  intros Htry.
  destruct (redraw_trace (nonces cur) (extra_attempts cur) (draw g) 0 (advance g))
    as (k & Hdup & Hend).
  rewrite (examined_shift (draw g)), skip_advance in Hend. cbn [examined] in Hend.
  exists k. split.
  - apply consecutive_duplicates_spec. intros j Hj.
    specialize (Hdup j Hj). now rewrite (examined_shift (draw g)) in Hdup.
  - unfold search_step. rewrite Htry. cbn [negb].
    rewrite gen_nonce_eq. pysimpl.
    destruct Hend as [(Hnew & Hk & Hrun) | (Hk1 & Hk & Hrun)]; rewrite Hrun; pysimpl.
    + left. split; [exact Hnew|]. split; [lia|].
      rewrite int16_gen_hash. reflexivity.
    + right. split; [exact Hk1|]. split; [lia | reflexivity].
Qed.

End SearchTrace.

(** X1. The guess of a search step is the first candidate drawn that is
    not in the tried set, when at most [len(self.nonces) +
    self.extra_attempts] duplicates come before it: that candidate is
    added to the tried set, its digest value is the response, and the
    generator has moved exactly past it. *)
Theorem guess_is_first_fresh_draw self synapse g (k : nat) :
  let cur := Miner.begin_round self synapse in
  Miner.still_trying cur = true ->
  consecutive_duplicates (Miner.nonces cur) g k = true ->
  candidate g k ∉ Miner.nonces cur ->
  k = 0%nat \/
    Z.of_nat k <= Z.of_nat (size (Miner.nonces cur)) + Miner.extra_attempts cur ->
  Miner.forward self synapse g =
    Ok (Miner.Mk ({[candidate g k]} ∪ Miner.nonces cur)
                 (Some (block_id synapse)) (Miner.extra_attempts cur) true,
        answer synapse (Some (candidate g k)), skip (S k) g).
Proof.
  intros cur Htry Hdup Hnew Hk. unfold Miner.forward. fold cur.
  rewrite <- (begin_round_last self synapse). fold cur.
  rewrite consecutive_duplicates_spec in Hdup.
  destruct (search_step_trace cur synapse g Htry)
    as (k' & Hdup' & [(Hnew' & _ & Hrun) | (_ & Hk' & Hrun)]);
    rewrite consecutive_duplicates_spec in Hdup'.
  - assert (k' = k) as ->; [|exact Hrun].
    destruct (Nat.lt_trichotomy k' k) as [Hlt | [Heq | Hgt]]; [|exact Heq|].
    + exfalso. exact (Hnew' (Hdup k' Hlt)).
    + exfalso. exact (Hnew (Hdup' k Hgt)).
  - exfalso. apply Hnew, Hdup'. lia.
Qed.

Lemma guess_is_first_fresh_draw_witness :
  Miner.forward (Miner.Mk {["3"; "5"]}%string (Some 7) 10 true) (challenge 7)
      (tape_of [3; 5; 3; 8]) =
    Ok (Miner.Mk ({["8"%string]} ∪ {["3"; "5"]}%string) (Some 7) 10 true,
        answer (challenge 7) (Some "8"%string), skip 4 (tape_of [3; 5; 3; 8])).
Proof.
  pose proof (guess_is_first_fresh_draw
                (Miner.Mk {["3"; "5"]}%string (Some 7) 10 true) (challenge 7)
                (tape_of [3; 5; 3; 8]) 3) as H.
  cbv zeta in H. apply H.
  - reflexivity.
  - vm_compute. reflexivity.
  - vm_compute. discriminate.
  - right. vm_compute. discriminate.
Defined.

(** X2. A search step gives up only when every candidate it examined was
    a duplicate: if it starts searching and ends not searching, then with
    [k = max(1, len(self.nonces) + self.extra_attempts + 1)] its first [k]
    draws were all in the tried set, and it made [k + 1] draws in all. *)
Theorem gives_up_only_after_duplicates self synapse g self' synapse' g' :
  let cur := Miner.begin_round self synapse in
  let k := Z.to_nat (Z.max 1 (Z.of_nat (size (Miner.nonces cur))
                              + Miner.extra_attempts cur + 1)) in
  Miner.forward self synapse g = Ok (self', synapse', g') ->
  Miner.still_trying cur = true ->
  Miner.still_trying self' = false ->
  consecutive_duplicates (Miner.nonces cur) g k = true /\ g' = skip (S k) g.
Proof.
  intros cur k Hfwd Htry Hstop. unfold Miner.forward in Hfwd. fold cur in Hfwd.
  destruct (search_step_trace cur synapse g Htry)
    as (k' & Hdup' & [(_ & _ & Hrun) | (_ & Hk' & Hrun)]);
    rewrite Hrun in Hfwd; injection Hfwd as <- <- <-.
  - discriminate Hstop.
  - assert (k' = k) as -> by (unfold k; lia). now split.
Qed.

Lemma gives_up_only_after_duplicates_witness :
  consecutive_duplicates (Miner.nonces stuck_miner) (tape_of [4]) 4 = true /\
  skip 5 (tape_of [4]) = skip 5 (tape_of [4]).
Proof.
  apply (gives_up_only_after_duplicates stuck_miner (challenge 7) (tape_of [4])
           (exhausted stuck_miner) (challenge 7) (skip 5 (tape_of [4])));
    [vm_compute; reflexivity | reflexivity | reflexivity].
Defined.

(** X3. The cost of a forward pass is bounded: it never raises, and it
    calls [gen_nonce] at most [max(2, len(self.nonces) +
    self.extra_attempts + 2)] times, the tried set being the one it
    searches in; the generator is otherwise left alone. *)
Theorem search_cost_bound self synapse g :
  let cur := Miner.begin_round self synapse in
  exists self' synapse' (k : nat),
    Miner.forward self synapse g = Ok (self', synapse', skip k g) /\
    Z.of_nat k <=
      Z.max 2 (Z.of_nat (size (Miner.nonces cur)) + Miner.extra_attempts cur + 2).
Proof.
  intros cur. unfold Miner.forward. fold cur.
  destruct (Miner.still_trying cur) eqn:Htry.
  - destruct (search_step_trace cur synapse g Htry)
      as (k & _ & [(_ & Hk & Hrun) | (_ & Hk & Hrun)]);
      rewrite Hrun; eexists _, _, (S k); (split; [reflexivity | lia]).
  - exists cur, synapse, 0%nat. split; [|lia].
    unfold Miner.search_step. rewrite Htry, skip_0. reflexivity.
Qed.

(** X4. Once all eleven candidates are in the tried set the search cannot
    succeed: the next step of a miner that is still searching gives up,
    after [max(1, len(self.nonces) + self.extra_attempts + 1) + 1] draws,
    whatever the generator holds. *)
Theorem full_tried_set_exhausts self synapse g :
  let cur := Miner.begin_round self synapse in
  let k := Z.to_nat (Z.max 1 (Z.of_nat (size (Miner.nonces cur))
                              + Miner.extra_attempts cur + 1)) in
  Miner.still_trying cur = true ->
  domain_set ⊆ Miner.nonces cur ->
  Miner.forward self synapse g = Ok (exhausted cur, synapse, skip (S k) g).
Proof.
  intros cur k Htry Hfull. unfold Miner.forward. fold cur.
  destruct (search_step_trace cur synapse g Htry)
    as (k' & _ & [(Hnew & _ & _) | (_ & Hk' & Hrun)]).
  - exfalso. apply Hnew, Hfull, candidate_domain.
  - assert (k' = k) as -> by (unfold k; lia). exact Hrun.
Qed.

Lemma full_tried_set_exhausts_witness :
  Miner.forward (Miner.Mk domain_set (Some 7) 10 true) (challenge 7) (tape_of [2; 9]) =
    Ok (Miner.Mk domain_set (Some 7) 10 false, challenge 7,
        skip 23 (tape_of [2; 9])).
Proof.
  apply (full_tried_set_exhausts (Miner.Mk domain_set (Some 7) 10 true)
           (challenge 7) (tape_of [2; 9])); [reflexivity | reflexivity].
Defined.

(** ** What a forward pass keeps *)

Section MinerFrame.

Import Miner.

Lemma begin_round_extra self synapse :
  extra_attempts (begin_round self synapse) = extra_attempts self.
Proof. unfold begin_round. now destruct (decide _). Qed.

Lemma begin_round_domain self synapse :
  nonces self ⊆ domain_set -> nonces (begin_round self synapse) ⊆ domain_set.
Proof.
  intros H. unfold begin_round. destruct (decide _); [|exact H].
  cbn [nonces]. apply empty_subseteq.
Qed.

(** A forward pass either picks a candidate of the domain that is new to
    the round, or picks none and leaves the tried set alone. *)
Lemma forward_outcome self synapse g :
  exists self' pick g',
    forward self synapse g = Ok (self', answer synapse pick, g') /\
    last_block_id self' = Some (block_id synapse) /\
    extra_attempts self' = extra_attempts self /\
    match pick with
    | None => nonces self' = nonces (begin_round self synapse)
    | Some c =>
      c ∈ domain_set /\ (c ∉ nonces (begin_round self synapse)) /\
      nonces self' = {[c]} ∪ nonces (begin_round self synapse)
    end.
Proof.
  unfold forward.
  pose proof (begin_round_last self synapse) as Hlast.
  pose proof (begin_round_extra self synapse) as Hextra.
  set (cur := begin_round self synapse) in *.
  destruct (still_trying cur) eqn:Htry.
  - destruct (search_step_trace cur synapse g Htry)
      as (k & _ & [(Hnew & _ & Hrun) | (_ & _ & Hrun)]); rewrite Hrun.
    + exists (Mk ({[candidate g k]} ∪ nonces cur) (last_block_id cur)
                 (extra_attempts cur) true), (Some (candidate g k)), (skip (S k) g).
      repeat split; auto using candidate_domain.
    + exists (exhausted cur), None, (skip (S k) g). repeat split; auto.
  - exists cur, None, g. unfold search_step. rewrite Htry. repeat split; auto.
Qed.

End MinerFrame.

Lemma size_domain_set : size domain_set = 11%nat.
Proof. reflexivity. Qed.

Lemma answer_answers req pick :
  match pick with Some c => c ∈ domain_set | None => True end ->
  answers req (answer req pick).
Proof.
  intros Hpick. destruct pick as [c|]; cbn; repeat split; eauto.
Qed.

(** X5. Serving any sequence of requests, for any mix of block ids, never
    raises.  Each response keeps the block id and the caller of its
    request and is either the request itself or carries the digest value
    of one of the eleven candidates; the miner ends on the block id of the
    last request with its slack [extra_attempts] unchanged. *)
Theorem serve_never_raises self reqs g :
  exists self' resps g',
    serve self reqs g = Ok (self', resps, g') /\
    Forall2 answers reqs resps /\
    Miner.extra_attempts self' = Miner.extra_attempts self /\
    (forall req, last reqs = Some req ->
                 Miner.last_block_id self' = Some (block_id req)).
Proof.
  revert self g. induction reqs as [|req reqs IH]; intros self g.
  - exists self, [], g. repeat split; [constructor | discriminate].
  - destruct (forward_outcome self req g)
      as (self1 & pick & g1 & Hfwd & Hlast & Hextra & Hpick).
    destruct (IH self1 g1) as (self' & resps & g' & Hrun & Hall & Hextra' & Hlast').
    exists self', (answer req pick :: resps), g'.
    cbn [serve]. rewrite Hfwd. pysimpl. rewrite Hrun. pysimpl.
    split; [reflexivity|]. split; [|split].
    + constructor; [|exact Hall]. apply answer_answers.
      destruct pick; [apply Hpick | exact I].
    + congruence.
    + intros r Hr. destruct reqs as [|req2 reqs].
      * cbn in Hr. injection Hr as <-.
        cbn [serve] in Hrun. injection Hrun as <- _ _. exact Hlast.
      * apply Hlast'. exact Hr.
Qed.

Lemma serve_domain reqs : forall self g,
  Miner.nonces self ⊆ domain_set ->
  exists self' resps g',
    serve self reqs g = Ok (self', resps, g') /\
    Miner.nonces self' ⊆ domain_set.
Proof.
  induction reqs as [|req reqs IH]; intros self g Hdom.
  - exists self, [], g. split; [reflexivity | exact Hdom].
  - destruct (forward_outcome self req g)
      as (self1 & pick & g1 & Hfwd & _ & _ & Hpick).
    pose proof (begin_round_domain self req Hdom) as Hcur.
    assert (Miner.nonces self1 ⊆ domain_set) as Hdom1.
    { destruct pick as [c|].
      - destruct Hpick as (Hc & _ & ->). set_solver.
      - now rewrite Hpick. }
    destruct (IH self1 g1 Hdom1) as (self' & resps & g' & Hrun & Hdom').
    exists self', (answer req pick :: resps), g'.
    cbn [serve]. rewrite Hfwd. pysimpl. rewrite Hrun. pysimpl. auto.
Qed.

(** X6. The tried set never leaves the domain: a miner whose tried set
    holds only candidates of the domain (as a new miner's empty set does)
    still does after any sequence of requests, so the set never has more
    than eleven elements. *)
Theorem tried_set_stays_in_domain self reqs g :
  Miner.nonces self ⊆ domain_set ->
  exists self' resps g',
    serve self reqs g = Ok (self', resps, g') /\
    Miner.nonces self' ⊆ domain_set /\
    (size (Miner.nonces self') <= 11)%nat.
Proof.
  intros Hdom.
  destruct (serve_domain reqs self g Hdom) as (self' & resps & g' & Hrun & Hdom').
  exists self', resps, g'. split; [exact Hrun|]. split; [exact Hdom'|].
  rewrite <- size_domain_set. now apply subseteq_size.
Qed.

Lemma tried_set_stays_in_domain_witness :
  exists self' resps g',
    serve Miner.init [challenge 7; challenge 8; challenge 8] (tape_of [3; 21; 10]) =
      Ok (self', resps, g') /\
    Miner.nonces self' ⊆ domain_set /\
    (size (Miner.nonces self') <= 11)%nat.
Proof.
  apply (tried_set_stays_in_domain Miner.init
           [challenge 7; challenge 8; challenge 8] (tape_of [3; 21; 10])).
  apply empty_subseteq.
Defined.

(** X7. A round has room for eleven guesses at most: along any sequence
    of requests for one block id, the number of candidates picked plus the
    size of the tried set the round started with never exceeds eleven,
    provided that set held candidates of the domain only (it is empty when
    the block id is new). *)
Theorem round_guess_budget self reqs g b :
  Forall (fun req => block_id req = b) reqs ->
  Miner.nonces (round_start self reqs) ⊆ domain_set ->
  exists self' picks g',
    serve self reqs g = Ok (self', zip_with answer reqs picks, g') /\
    length picks = length reqs /\
    (length (picked picks) + size (Miner.nonces (round_start self reqs)) <= 11)%nat.
Proof.
  intros Hreqs Hdom. destruct reqs as [|req reqs].
  - exists self, [], g. split; [reflexivity|]. split; [reflexivity|].
    cbn. rewrite <- size_domain_set. now apply subseteq_size.
  - cbn [round_start] in *. rewrite <- serve_begin_round.
    inversion Hreqs as [|? ? Hreq Hrest]; subst.
    destruct (serve_round (block_id req) (req :: reqs)
                (Miner.begin_round self req) g (begin_round_last self req) Hreqs)
      as (self' & picks & g' & Hrun & Hlen & Hnd & Hfresh & Hset & _).
    destruct (serve_domain (req :: reqs) (Miner.begin_round self req) g Hdom)
      as (self2 & resps2 & g2 & Hrun2 & Hdom2).
    rewrite Hrun in Hrun2. injection Hrun2 as <- _ _.
    exists self', picks, g'. split; [exact Hrun|]. split; [exact Hlen|].
    apply subseteq_size in Hdom2. rewrite size_domain_set in Hdom2.
    rewrite Hset, size_union, size_list_to_set in Hdom2 by (auto; set_solver).
    exact Hdom2.
Qed.

Lemma round_guess_budget_witness :
  exists self' picks g',
    serve stuck_miner [challenge 8; challenge 8] (tape_of [6; 6; 1]) =
      Ok (self', zip_with answer [challenge 8; challenge 8] picks, g') /\
    length picks = 2%nat /\
    (length (picked picks) + 0 <= 11)%nat.
Proof.
  apply (round_guess_budget stuck_miner [challenge 8; challenge 8]
           (tape_of [6; 6; 1]) 8).
  - repeat constructor.
  - apply empty_subseteq.
Defined.

(** ** The caller checks: [blacklist] and [priority] *)

Section Callers.

Import Miner.

(** [list.index] returns the first position that holds the value. *)
Lemma index_found x l :
  contains x l = true ->
  exists (uid : nat) (h : string),
    index x l = Ok uid /\ x = Some h /\ l !! uid = Some h /\
    (forall j, (j < uid)%nat -> l !! j <> Some h).
Proof.
  induction l as [|y l IH]; cbn [contains existsb index]; [discriminate|].
  intros Hin. destruct (decide (x = Some y)) as [->|Hne].
  - exists 0%nat, y. repeat split; auto. intros j Hj. lia.
  - rewrite bool_decide_eq_false_2 in Hin by exact Hne. cbn [orb] in Hin.
    destruct (IH Hin) as (uid & h & Hidx & -> & Hat & Hfirst).
    exists (S uid), h. rewrite Hidx. pysimpl. repeat split; auto.
    intros [|j] Hj; cbn; [congruence | apply Hfirst; lia].
Qed.

End Callers.

(** X8. [blacklist] raises [ValueError] exactly for the callers whose
    hotkey is not registered, whatever the configuration says, also with
    [allow_non_registered] set; and it raises nothing else when
    [validator_permit] has an entry for every hotkey. *)
Theorem blacklist_raises metagraph config synapse :
  (Miner.blacklist metagraph config synapse = Raise ValueError <->
   Miner.contains (dendrite_hotkey synapse) (Miner.hotkeys metagraph) = false) /\
  (length (Miner.hotkeys metagraph) <= length (Miner.validator_permit metagraph)
   -> Miner.blacklist metagraph config synapse <> Raise IndexError)%nat.
Proof.
  unfold Miner.blacklist.
  destruct (Miner.contains (dendrite_hotkey synapse) (Miner.hotkeys metagraph))
    eqn:Hin.
  - destruct (index_found _ _ Hin) as (uid & h & Hidx & _ & Hat & _).
    rewrite Hidx. pysimpl. rewrite andb_false_r.
    apply lookup_lt_Some in Hat. split.
    + split; [|discriminate].
      destruct (Miner.force_validator_permit config); pysimpl;
        [unfold Miner.getitem; destruct (_ !! uid) as [[]|]|]; discriminate.
    + intros Hlen. unfold Miner.getitem.
      destruct (lookup_lt_is_Some_2 (Miner.validator_permit metagraph) uid
                  ltac:(lia)) as [permit ->].
      destruct (Miner.force_validator_permit config), permit; discriminate.
  - rewrite index_absent by exact Hin. split; [tauto | discriminate].
Qed.

Lemma blacklist_raises_witness :
  Miner.blacklist (Miner.MkMetagraph ["alice"; "bob"]%string [true; false])
                  (Miner.MkBlacklistConfig true true)
                  (MkDummy 7 None (Some "carol"%string)) = Raise ValueError.
Proof.
  apply (blacklist_raises (Miner.MkMetagraph ["alice"; "bob"]%string [true; false])
           (Miner.MkBlacklistConfig true true)
           (MkDummy 7 None (Some "carol"%string))).
  reflexivity.
Defined.

(** X9. For a registered caller [blacklist] looks at the first position
    that holds the caller's hotkey and at nothing but
    [force_validator_permit]: without it the caller passes; with it the
    caller passes when [validator_permit] is set at that position, is
    blacklisted as a non-validator when it is not, and an [IndexError] is
    raised when the position has no entry. *)
Theorem blacklist_registered metagraph config synapse :
  Miner.contains (dendrite_hotkey synapse) (Miner.hotkeys metagraph) = true ->
  exists (uid : nat) (h : string),
    dendrite_hotkey synapse = Some h /\
    Miner.hotkeys metagraph !! uid = Some h /\
    (forall j, (j < uid)%nat -> Miner.hotkeys metagraph !! j <> Some h) /\
    Miner.blacklist metagraph config synapse =
      if Miner.force_validator_permit config then
        match Miner.validator_permit metagraph !! uid with
        | Some true => Ok (false, "Hotkey recognized!"%string)
        | Some false => Ok (true, "Non-validator hotkey"%string)
        | None => Raise IndexError
        end
      else Ok (false, "Hotkey recognized!"%string).
Proof.
  intros Hin.
  destruct (index_found _ _ Hin) as (uid & h & Hidx & Hh & Hat & Hfirst).
  exists uid, h. repeat split; auto.
  unfold Miner.blacklist. rewrite Hidx, Hin. pysimpl. rewrite andb_false_r.
  destruct (Miner.force_validator_permit config); [|reflexivity].
  unfold Miner.getitem.
  destruct (Miner.validator_permit metagraph !! uid) as [[]|]; reflexivity.
Qed.

Lemma blacklist_registered_witness :
  exists (uid : nat) (h : string),
    Some "bob"%string = Some h /\
    ["alice"; "bob"; "bob"]%string !! uid = Some h /\
    (forall j, (j < uid)%nat -> ["alice"; "bob"; "bob"]%string !! j <> Some h) /\
    Miner.blacklist
        (Miner.MkMetagraph ["alice"; "bob"; "bob"]%string [true; false; true])
        (Miner.MkBlacklistConfig false true)
        (MkDummy 7 None (Some "bob"%string)) =
      match [true; false; true] !! uid with
      | Some true => Ok (false, "Hotkey recognized!"%string)
      | Some false => Ok (true, "Non-validator hotkey"%string)
      | None => Raise IndexError
      end.
Proof.
  apply (blacklist_registered
           (Miner.MkMetagraph ["alice"; "bob"; "bob"]%string [true; false; true])
           (Miner.MkBlacklistConfig false true)
           (MkDummy 7 None (Some "bob"%string))).
  reflexivity.
Defined.

(** X10. The answer [(True, "Unrecognized hotkey")] is never given: no
    metagraph, configuration and request make [blacklist] return it. *)
Theorem blacklist_never_unrecognized metagraph config synapse :
  Miner.blacklist metagraph config synapse <>
    Ok (true, "Unrecognized hotkey"%string).
Proof.
  destruct (Miner.contains (dendrite_hotkey synapse) (Miner.hotkeys metagraph))
    eqn:Hin.
  - destruct (index_found _ _ Hin) as (uid & h & Hidx & _).
    unfold Miner.blacklist. rewrite Hidx, Hin. pysimpl. rewrite andb_false_r.
    destruct (Miner.force_validator_permit config); pysimpl; [|discriminate].
    unfold Miner.getitem. destruct (_ !! uid) as [[]|]; discriminate.
  - unfold Miner.blacklist. rewrite index_absent by exact Hin. discriminate.
Qed.

(** X11. [priority] raises [ValueError] for exactly the callers
    [blacklist] raises it for, those whose hotkey is not registered; for a
    registered caller it returns the stake at the first position that
    holds the caller's hotkey, or raises [IndexError] when the stakes have
    no entry there. *)
Theorem priority_first_match {Stake Float : Type} (float : Stake -> Float)
    (stakes : list Stake) metagraph synapse :
  (Miner.priority float stakes metagraph synapse = Raise ValueError <->
   Miner.contains (dendrite_hotkey synapse) (Miner.hotkeys metagraph) = false) /\
  (Miner.contains (dendrite_hotkey synapse) (Miner.hotkeys metagraph) = true ->
   exists (uid : nat) (h : string),
     dendrite_hotkey synapse = Some h /\
     Miner.hotkeys metagraph !! uid = Some h /\
     (forall j, (j < uid)%nat -> Miner.hotkeys metagraph !! j <> Some h) /\
     Miner.priority float stakes metagraph synapse =
       match stakes !! uid with
       | Some stake => Ok (float stake)
       | None => Raise IndexError
       end).
Proof.
  unfold Miner.priority.
  destruct (Miner.contains (dendrite_hotkey synapse) (Miner.hotkeys metagraph))
    eqn:Hin.
  - destruct (index_found _ _ Hin) as (uid & h & Hidx & Hh & Hat & Hfirst).
    rewrite Hidx. pysimpl. unfold Miner.getitem. split.
    + split; [|discriminate]. destruct (stakes !! uid); discriminate.
    + intros _. exists uid, h. repeat split; auto.
      now destruct (stakes !! uid).
  - rewrite index_absent by exact Hin. split; [tauto | discriminate].
Qed.

Lemma priority_first_match_witness :
  exists (uid : nat) (h : string),
    Some "bob"%string = Some h /\
    ["alice"; "bob"; "bob"]%string !! uid = Some h /\
    (forall j, (j < uid)%nat -> ["alice"; "bob"; "bob"]%string !! j <> Some h) /\
    Miner.priority Z.of_nat [5; 9; 2]%nat
        (Miner.MkMetagraph ["alice"; "bob"; "bob"]%string [true; false; true])
        (MkDummy 7 None (Some "bob"%string)) =
      match [5; 9; 2]%nat !! uid with
      | Some stake => Ok (Z.of_nat stake)
      | None => Raise IndexError
      end.
Proof.
  apply (priority_first_match Z.of_nat [5; 9; 2]%nat
           (Miner.MkMetagraph ["alice"; "bob"; "bob"]%string [true; false; true])
           (MkDummy 7 None (Some "bob"%string))).
  reflexivity.
Defined.

(** ** The digest value as a number *)

Lemma be_int_bound bs : forall acc k,
  Forall is_byte bs ->
  0 <= acc < 256 ^ Z.of_nat k ->
  0 <= fold_left (fun a b => a * 256 + b) bs acc
    < 256 ^ Z.of_nat (k + length bs).
Proof.
  induction bs as [|b bs IH]; intros acc k Hbs Hacc; cbn [fold_left length].
  - now rewrite Nat.add_0_r.
  - inversion Hbs as [|? ? Hb Hbs']; subst. unfold is_byte in Hb.
    replace (k + S (length bs))%nat with (S k + length bs)%nat by lia.
    apply IH; [exact Hbs'|].
    rewrite Nat2Z.inj_succ, Z.pow_succ_r by lia. lia.
Qed.

Lemma be_int_inj l1 : forall l2 acc1 acc2,
  length l1 = length l2 ->
  Forall is_byte l1 -> Forall is_byte l2 ->
  fold_left (fun a b => a * 256 + b) l1 acc1 =
    fold_left (fun a b => a * 256 + b) l2 acc2 ->
  acc1 = acc2 /\ l1 = l2.
Proof.
  induction l1 as [|b1 l1 IH]; intros [|b2 l2] acc1 acc2 Hlen H1 H2 Heq;
    try discriminate Hlen; cbn [fold_left] in Heq; [now split|].
  inversion H1 as [|? ? Hb1 H1']; inversion H2 as [|? ? Hb2 H2']; subst.
  injection Hlen as Hlen.
  destruct (IH l2 _ _ Hlen H1' H2' Heq) as [Hacc ->].
  unfold is_byte in *. split; [lia | f_equal; lia].
Qed.

(** X12. The value exchanged for a candidate, [int(gen_hash(c), 16)], is
    always defined and is a natural number below [2^256]. *)
Theorem digest_value_range (c : string) :
  exists v, int16 (gen_hash c) = Ok v /\ 0 <= v < 2 ^ 256.
Proof.
  exists (digest_value c). split; [apply int16_gen_hash|].
  unfold digest_value, Sha256.be_int.
  pose proof (be_int_bound (Sha256.digest (encode c)) 0 0
                (digest_bytes _) ltac:(cbn; lia)) as H.
  rewrite digest_length in H. exact H.
Qed.

Lemma hex_eq_of_value_eq (d1 d2 : list Z) :
  length d1 = length d2 -> d1 <> [] ->
  Forall is_byte d1 -> Forall is_byte d2 ->
  int16 (hex d1) = int16 (hex d2) -> hex d1 = hex d2.
Proof.
  intros Hlen Hne H1 H2 Heq.
  assert (d2 <> []) as Hne2 by (destruct d1, d2; try discriminate; congruence).
  rewrite !int16_hex in Heq by assumption. injection Heq as Heq.
  unfold Sha256.be_int in Heq.
  destruct (be_int_inj d1 d2 0 0 Hlen H1 H2 Heq) as [_ ->]. reflexivity.
Qed.

Lemma gen_hash_eq c : gen_hash c = hex (Sha256.digest (encode c)).
Proof. reflexivity. Qed.

Lemma digest_nonempty msg : Sha256.digest msg <> [].
Proof.
  intros E. pose proof (digest_length msg) as L. rewrite E in L. discriminate L.
Qed.

(** X13. Reading the digest as an integer loses nothing: two candidates
    have the same [int(gen_hash(c), 16)] exactly when they have the same
    [gen_hash(c)], leading zeros of the digest included. *)
Theorem digest_value_faithful (a b : string) :
  int16 (gen_hash a) = int16 (gen_hash b) <-> gen_hash a = gen_hash b.
Proof.
  split; [|intros Heq; rewrite Heq; reflexivity].
  rewrite !gen_hash_eq. apply hex_eq_of_value_eq.
  - rewrite !digest_length. reflexivity.
  - apply digest_nonempty.
  - apply digest_bytes.
  - apply digest_bytes.
Qed.

Lemma digest_value_faithful_witness :
  int16 (gen_hash (str 7)) = int16 (gen_hash "7").
Proof.
  apply (digest_value_faithful (str 7) "7"). vm_compute. reflexivity.
Defined.

Lemma domain_cases c :
  c ∈ domain_set -> In c default_candidates.
Proof.
  unfold domain_set. rewrite elem_of_list_to_set. apply list_elem_of_In.
Qed.

Lemma NoDup_map_inj {A B : Type} (f : A -> B) (l : list A) x y :
  NoDup (map f l) -> In x l -> In y l -> f x = f y -> x = y.
Proof.
  induction l as [|a l IH]; cbn [map In]; [tauto|].
  intros Hnd Hx Hy Heq. apply NoDup_cons in Hnd as [Ha Hnd].
  rewrite list_elem_of_In in Ha.
  destruct Hx as [<-|Hx], Hy as [<-|Hy]; auto.
  - exfalso. apply Ha. rewrite Heq. now apply in_map.
  - exfalso. apply Ha. rewrite <- Heq. now apply in_map.
Qed.

Lemma domain_digests_distinct : NoDup (map digest_value default_candidates).
Proof. apply (bool_decide_unpack _). vm_compute. exact I. Qed.

(** X14. Among the eleven candidates the digest value identifies the
    candidate: a guess equals the validator's target only when the miner
    picked the very candidate the validator drew as its secret. *)
Theorem guess_matches_only_secret (c secret : string) :
  c ∈ domain_set -> secret ∈ domain_set ->
  (int16 (gen_hash c) = int16 (gen_hash secret) <-> c = secret).
Proof.
  intros Hc Hs. split; [|now intros ->].
  rewrite !int16_gen_hash. intros Heq. injection Heq as Heq.
  apply (NoDup_map_inj digest_value default_candidates);
    auto using domain_digests_distinct, domain_cases.
Qed.

Lemma guess_matches_only_secret_witness :
  int16 (gen_hash "10") = int16 (gen_hash "10") <-> "10"%string = "10"%string.
Proof.
  apply (guess_matches_only_secret "10" "10"); now vm_compute.
Defined.

(** ** The validator's passes *)

Section ValidatorRun.

Context {Base World Reward : Type}.
Variable get_random_uids : Validator.t Base -> World -> rng -> list nat * rng.
Variable dendrite : list nat -> Dummy -> World -> list (option Z) * World.
Variable get_rewards :
  Validator.t Base -> list (option Z) -> Validator.t Base * list Reward.
Variable update_scores :
  Validator.t Base -> list Reward -> list nat -> Validator.t Base.

#[local] Abbreviation run_forward :=
  (Validator.forward get_random_uids dendrite get_rewards update_scores).
#[local] Abbreviation run_query :=
  (Validator.query get_random_uids dendrite get_rewards update_scores).
#[local] Abbreviation run_passes :=
  (Validator.passes get_random_uids dendrite get_rewards update_scores).

(** The query sends one challenge, for the block asked, with no hash. *)
Lemma query_trace (self : Validator.t Base) block g w :
  exists self' g' w' uids,
    run_query self block g w =
      (self', g', w', [Validator.Challenge uids (MkDummy block None None)]).
Proof.
  unfold Validator.query.
  destruct (get_random_uids self w g) as [uids g1].
  destruct (dendrite uids (MkDummy block None None) w) as [responses w1].
  destruct (get_rewards self responses) as [self1 rewards].
  eauto.
Qed.

(** X15. The commit step of a validator pass never raises.  When the
    collaborators of the pass return normally (selection, the axon lookup
    and network call, reward assignment and score update are total in this
    model, so what they may raise is outside it), the pass dispatches at
    most one challenge, always for the current block and with no hash.  It
    dispatches none exactly when the block is the one last seen and the
    secret has been found, and then nothing else changes either. *)
Theorem forward_dispatch (self : Validator.t Base) block g w :
  (exists committed g1,
     Validator.commit self block g = Ok (committed, g1)) /\
  exists self' g' w' calls,
    run_forward self block g w = Ok (self', g', w', calls) /\
    ((Validator.nonce_not_found self = false /\
      Validator.last_block self = Some block /\
      calls = [] /\ self' = self /\ g' = g /\ w' = w) \/
     ((Validator.nonce_not_found self = true \/
       Validator.last_block self <> Some block) /\
      exists uids,
        calls = [Validator.Challenge uids (MkDummy block None None)])).
Proof.
  split.
  { destruct (decide (Validator.last_block self = Some block)) as [Hsame|Hnew].
    - rewrite commit_same_block by exact Hsame. eauto.
    - rewrite commit_new_block by exact Hnew. eauto. }
  unfold Validator.forward.
  destruct (decide (Validator.last_block self = Some block)) as [Hsame|Hnew].
  - rewrite commit_same_block by exact Hsame. pysimpl.
    destruct (Validator.nonce_not_found self) eqn:Hnf.
    + match goal with |- context [Validator.query _ _ _ _ ?v _ _ _] =>
        destruct (query_trace v block g w) as (self' & g' & w' & uids & Hq)
      end.
      rewrite Hq. exists self', g', w', [Validator.Challenge uids (MkDummy block None None)].
      split; [reflexivity|]. right. eauto.
    + exists self, g, w, []. split; [reflexivity|]. left. now repeat split.
  - rewrite commit_new_block by exact Hnew. pysimpl.
    cbn [Validator.nonce_not_found].
    match goal with |- context [Validator.query _ _ _ _ ?v _ ?g1 _] =>
      destruct (query_trace v block g1 w) as (self' & g' & w' & uids & Hq)
    end.
    rewrite Hq. exists self', g', w', [Validator.Challenge uids (MkDummy block None None)].
    split; [reflexivity|]. right. eauto.
Qed.

Hypothesis rewards_keep_round :
  forall responses, keeps_round (fun v => fst (get_rewards v responses)).
Hypothesis scores_keep_round :
  forall rewards uids, keeps_round (fun v => update_scores v rewards uids).




End ValidatorRun.


(** ** A first guess against a new target *)

Lemma draw_domain g : draw g ∈ domain_set.
Proof. rewrite draw_candidate. apply candidate_domain. Qed.

(** X17. When a miner answers the first request of a round and a
    validator commits to a new block, neither raises, and the [hash] of the
    miner's response is the validator's target exactly when the two drew
    the same candidate. *)
Theorem first_guess_hits_iff_same_draw {Base : Type}
    (miner : Miner.t) (synapse : Dummy) (g : rng)
    (validator : Validator.t Base) (block : Z) (gv : rng) :
  Miner.last_block_id miner <> Some (block_id synapse) ->
  Validator.last_block validator <> Some block ->
  exists miner' response g' validator' gv',
    Miner.forward miner synapse g = Ok (miner', response, g') /\
    Validator.commit validator block gv = Ok (validator', gv') /\
    (hash response = Some (Validator.nonce validator') <-> draw g = draw gv).
Proof.
  intros Hm Hv. rewrite forward_new_round by exact Hm.
  rewrite commit_new_block by exact Hv.
  eexists _, _, _, _, _. split; [reflexivity|]. split; [reflexivity|].
  cbn [answer set_hash hash Validator.nonce]. split.
  - intros Heq. injection Heq as Heq.
    apply (NoDup_map_inj digest_value default_candidates);
      auto using domain_digests_distinct, domain_cases, draw_domain.
  - intros ->. reflexivity.
Qed.

Lemma first_guess_hits_iff_same_draw_witness :
  exists miner' response g' validator' gv',
    Miner.forward Miner.init (challenge 8) (tape_of [18]) =
      Ok (miner', response, g') /\
    Validator.commit resolved_validator 8 (tape_of [7]) = Ok (validator', gv') /\
    (hash response = Some (Validator.nonce validator') <->
     draw (tape_of [18]) = draw (tape_of [7])).
Proof.
  apply (first_guess_hits_iff_same_draw Miner.init (challenge 8) (tape_of [18])
           resolved_validator 8 (tape_of [7])); discriminate.
Defined.
